(** * VRRP and BFD metric extraction of the FRR exporter

    A shallow embedding of [collector/vrrp.go] (the VRRP extractor:
    [getVRRPDesc], [processVRRPInfo], [processInstance]) together with the
    parts of the Go runtime it calls ([encoding/json], [strings.EqualFold],
    [strconv.FormatUint], UTF-8 coding), and of the BFD extractor whose
    behaviour is fixed by [collector/bfd_test.go] and the specification.

    Conventions.
    - A Go [string] and a Go [[]byte] are sequences of bytes: both are
      Rocq [string]s (a list of 8-bit [ascii] characters).
    - A [uint32] is an [N]; the decoder only produces values below [2^32].
    - A [float64] observation value is the integer it was converted from:
      the code only ever stores [0], [1], [float64(len(..))] and
      [float64(x)] for an unsigned integer [x] below [2^53], all of which
      are represented exactly.
    - The channel [ch] is the list of metrics sent so far, oldest first. *)

From Stdlib Require Import ZArith NArith Lia List Ascii String.
From Stdlib Require Import DecimalString DecimalPos DecimalN.
From stdpp Require Import base gmap strings list.

Set Warnings "-register-all,-abstract-large-number".

Open Scope Z_scope.

(** ** Bytes *)

Definition code (c : ascii) : Z := Z.of_N (N_of_ascii c).
Definition chr (n : Z) : ascii := ascii_of_N (Z.to_N (n mod 256)).

Definition inRange (lo hi : Z) (c : ascii) : bool :=
  (lo <=? code c) && (code c <=? hi).

Fixpoint dropBytes (n : nat) (s : string) : string :=
  match n, s with
  | S k, String _ r => dropBytes k r
  | _, _ => s
  end.

(** ** Package [unicode/utf8] *)

Module utf8.

Definition RuneError : Z := 65533.   (* U+FFFD *)
Definition RuneSelf : Z := 128.
Definition MaxRune : Z := 1114111.   (* U+10FFFF *)

(** [utf8.DecodeRuneInString]: the first rune of [s] and its width in bytes;
    [(RuneError, 0)] on the empty string and [(RuneError, 1)] on an invalid
    or truncated encoding.  The tables [first] and [acceptRanges] of the Go
    source are written out as the comparisons they encode. *)
Definition DecodeRuneInString (s : string) : Z * nat :=
  match s with
  | EmptyString => (RuneError, 0%nat)
  | String c0 r0 =>
    let s0 := code c0 in
    if s0 <? 128 then (s0, 1%nat)
    else if (s0 <? 194) || (244 <? s0) then (RuneError, 1%nat)
    else
      let lo := if s0 =? 224 then 160 else if s0 =? 240 then 144 else 128 in
      let hi := if s0 =? 237 then 159 else if s0 =? 244 then 143 else 191 in
      match r0 with
      | EmptyString => (RuneError, 1%nat)
      | String c1 r1 =>
        let s1 := code c1 in
        if negb (inRange lo hi c1) then (RuneError, 1%nat)
        else if s0 <? 224 then
          (Z.lor (Z.shiftl (Z.land s0 31) 6) (Z.land s1 63), 2%nat)
        else
          match r1 with
          | EmptyString => (RuneError, 1%nat)
          | String c2 r2 =>
            let s2 := code c2 in
            if negb (inRange 128 191 c2) then (RuneError, 1%nat)
            else if s0 <? 240 then
              (Z.lor (Z.lor (Z.shiftl (Z.land s0 15) 12)
                            (Z.shiftl (Z.land s1 63) 6))
                     (Z.land s2 63), 3%nat)
            else
              match r2 with
              | EmptyString => (RuneError, 1%nat)
              | String c3 _ =>
                let s3 := code c3 in
                if negb (inRange 128 191 c3) then (RuneError, 1%nat)
                else
                  (Z.lor (Z.lor (Z.lor (Z.shiftl (Z.land s0 7) 18)
                                       (Z.shiftl (Z.land s1 63) 12))
                                (Z.shiftl (Z.land s2 63) 6))
                         (Z.land s3 63), 4%nat)
              end
          end
      end
  end.

(** [utf8.AppendRune] onto the empty slice: the UTF-8 encoding of [r];
    surrogates and values outside the Unicode range encode [RuneError]. *)
Definition EncodeRune (r : Z) : string :=
  let three (x : Z) : string :=
    String (chr (Z.lor 224 (Z.shiftr x 12)))
      (String (chr (Z.lor 128 (Z.land (Z.shiftr x 6) 63)))
        (String (chr (Z.lor 128 (Z.land x 63))) EmptyString)) in
  if (0 <=? r) && (r <=? 127) then String (chr r) EmptyString
  else if (0 <=? r) && (r <=? 2047) then
    String (chr (Z.lor 192 (Z.shiftr r 6)))
      (String (chr (Z.lor 128 (Z.land r 63))) EmptyString)
  else if (r <? 0) || (MaxRune <? r) || ((55296 <=? r) && (r <=? 57343))
  then three RuneError
  else if r <=? 65535 then three r
  else
    String (chr (Z.lor 240 (Z.shiftr r 18)))
      (String (chr (Z.lor 128 (Z.land (Z.shiftr r 12) 63)))
        (String (chr (Z.lor 128 (Z.land (Z.shiftr r 6) 63)))
          (String (chr (Z.lor 128 (Z.land r 63))) EmptyString))).

End utf8.

(** ** Package [unicode] *)

Module unicode.

(** [unicode.SimpleFold] on the two kinds of orbit that contain an ASCII
    rune: the Latin letters other than k and s pair upper with lower case,
    [K -> k -> U+212A (Kelvin sign) -> K] and
    [S -> s -> U+017F (long s) -> S].  ASCII non-letters are fixed.  No
    other rune folds to an ASCII rune; every such rune is left fixed here,
    where Go consults its case tables.  All callers below compare against
    ASCII-only constants (the state names, the struct field names), for
    which only the orbits above decide the outcome. *)
Definition SimpleFold (r : Z) : Z :=
  if r =? 75 then 107               (* K -> k *)
  else if r =? 107 then 8490        (* k -> U+212A *)
  else if r =? 8490 then 75         (* U+212A -> K *)
  else if r =? 83 then 115          (* S -> s *)
  else if r =? 115 then 383         (* s -> U+017F *)
  else if r =? 383 then 83          (* U+017F -> S *)
  else if (65 <=? r) && (r <=? 90) then r + 32
  else if (97 <=? r) && (r <=? 122) then r - 32
  else r.

End unicode.

(** ** Package [strings] *)

Module strings.

(** The test [if 'A' <= sr && sr <= 'Z' && tr == sr+'a'-'A'] of
    [EqualFold], applied after [sr] and [tr] were put in order. *)
Definition asciiFoldEq (sr tr : Z) : bool :=
  (65 <=? sr) && (sr <=? 90) && (tr =? sr + 32).

(** [r := unicode.SimpleFold(sr); for r != sr && r < tr { r = SimpleFold(r) }]:
    the value of [r] when the loop ends.  An orbit of [SimpleFold] has at
    most three runes here (four in Unicode), so the loop body runs at most
    twice; [orbitFuel] leaves room. *)
Fixpoint foldLoop (fuel : nat) (sr tr r : Z) : Z :=
  match fuel with
  | O => r
  | S k => if negb (r =? sr) && (r <? tr)
           then foldLoop k sr tr (unicode.SimpleFold r)
           else r
  end.

Definition orbitFuel : nat := 8.

(** The body of the rune loop of [EqualFold] from "Easy case" on: do the
    runes [sr] and [tr] match under simple folding? *)
Definition runeFoldEq (sr tr : Z) : bool :=
  if tr =? sr then true
  else
    let '(sr, tr) := if tr <? sr then (tr, sr) else (sr, tr) in
    if tr <? utf8.RuneSelf then asciiFoldEq sr tr
    else foldLoop orbitFuel sr tr (unicode.SimpleFold sr) =? tr.

(** The loop after the label [hasUnicode]: [for _, sr := range s] decodes
    [s] rune by rune; [skip] counts the bytes of the current rune that are
    still to be passed over, so that the recursion is on the bytes of [s]. *)
Fixpoint hasUnicode (skip : nat) (s t : string) : bool :=
  match s with
  | EmptyString =>
    match t with EmptyString => true | _ => false end
  | String _ s' =>
    match skip with
    | S k => hasUnicode k s' t
    | O =>
      let '(sr, size) := utf8.DecodeRuneInString s in
      match t with
      | EmptyString => false
      | String t0 t1 =>
        let '(tr, t') :=
          if code t0 <? utf8.RuneSelf then (code t0, t1)
          else let '(r, n) := utf8.DecodeRuneInString t in (r, dropBytes n t) in
        if runeFoldEq sr tr then hasUnicode (size - 1) s' t' else false
      end
    end
  end.

(** [strings.EqualFold]: the byte loop over the common ASCII prefix, which
    jumps to [hasUnicode] at the first position where either byte is not
    ASCII. *)
Fixpoint EqualFold (s t : string) : bool :=
  match s, t with
  | String cs s', String ct t' =>
    let sr := code cs in
    let tr := code ct in
    if utf8.RuneSelf <=? Z.lor sr tr then hasUnicode 0 s t
    else if tr =? sr then EqualFold s' t'
    else
      let '(sr, tr) := if tr <? sr then (tr, sr) else (sr, tr) in
      if asciiFoldEq sr tr then EqualFold s' t' else false
  | EmptyString, EmptyString => true
  | _, _ => false
  end.

End strings.

(** ** Package [strconv] *)

Module strconv.

(** [strconv.FormatUint(n, 10)]: the decimal digits of [n], ["0"] for zero. *)
Definition FormatUint (n : N) : string :=
  NilEmpty.string_of_uint (N.to_uint n).

(** Is [s] a non-empty run of decimal digits? *)
Fixpoint allDigits (s : string) : bool :=
  match s with
  | EmptyString => true
  | String c r => inRange 48 57 c && allDigits r
  end.

Fixpoint digitsValue (acc : N) (s : string) : N :=
  match s with
  | EmptyString => acc
  | String c r => digitsValue (10 * acc + Z.to_N (code c - 48))%N r
  end.

(** [strconv.ParseUint(s, 10, 64)] followed by the overflow test of a
    [uint32] target, on the text of a JSON number: [None] stands for the
    error or the overflow.  A JSON number is accepted exactly when it is a
    run of digits (no sign, fraction or exponent) whose value fits. *)
Definition ParseUint32 (s : string) : option N :=
  match s with
  | EmptyString => None
  | _ =>
    if allDigits s then
      let n := digitsValue 0%N s in
      if (n <? 4294967296)%N then Some n else None
    else None
  end.

End strconv.

(** ** Package [encoding/json]

    [json.Unmarshal] first validates the whole input with its scanner
    ([checkValid]) and only then stores values into the target, so a syntax
    error leaves the target untouched.  The model parses the input into a
    syntax tree ([parse], accepting exactly what the scanner accepts) and
    then stores the tree into the Go value ([store..] functions, following
    [decodeState.value], [array], [object] and [literalStore]). *)

Module json.

Inductive value : Type :=
| Null
| Bool (b : bool)
| Number (lit : string)                  (* the text of the literal *)
| Str (s : string)                       (* the unquoted contents *)
| Array (elems : list value)
| Object (members : list (string * value)). (* in input order, keys unquoted *)

Inductive error : Type :=
| SyntaxError
| UnmarshalTypeError (Value : string).

(** *** Lexical level *)

Definition quote : ascii := chr 34.

Definition isSpace (c : ascii) : bool :=
  (code c =? 32) || (code c =? 9) || (code c =? 13) || (code c =? 10).

Fixpoint skipSpace (s : string) : string :=
  match s with
  | String c r => if isSpace c then skipSpace r else s
  | EmptyString => s
  end.

Definition isDigit (c : ascii) : bool := inRange 48 57 c.

Definition isHex (c : ascii) : bool :=
  inRange 48 57 c || inRange 97 102 c || inRange 65 70 c.

Definition hexVal (c : ascii) : Z :=
  if inRange 48 57 c then code c - 48
  else if inRange 97 102 c then code c - 97 + 10
  else code c - 65 + 10.

(** [getu4] on the four hexadecimal digits after a backslash and [u]. *)
Definition u4 (h1 h2 h3 h4 : ascii) : Z :=
  Z.lor (Z.lor (Z.lor (Z.shiftl (hexVal h1) 12) (Z.shiftl (hexVal h2) 8))
               (Z.shiftl (hexVal h3) 4))
        (hexVal h4).

(** [getu4(s)]: the rune of an escape [\uXXXX] at the start of [s], or [-1]. *)
Definition getu4 (s : string) : Z :=
  match s with
  | String b (String u (String h1 (String h2 (String h3 (String h4 _))))) =>
    if Ascii.eqb b "\" && Ascii.eqb u "u"
       && isHex h1 && isHex h2 && isHex h3 && isHex h4
    then u4 h1 h2 h3 h4 else -1
  | _ => -1
  end.

(** [utf16.IsSurrogate] and [utf16.DecodeRune]. *)
Definition IsSurrogate (r : Z) : bool := (55296 <=? r) && (r <? 57344).

Definition utf16DecodeRune (r1 r2 : Z) : Z :=
  if (55296 <=? r1) && (r1 <? 56320) && (56320 <=? r2) && (r2 <? 57344)
  then Z.lor (Z.shiftl (r1 - 55296) 10) (r2 - 56320) + 65536
  else utf8.RuneError.

Definition escapeByte (e : ascii) : option ascii :=
  if Ascii.eqb e "b" then Some (chr 8)
  else if Ascii.eqb e "f" then Some (chr 12)
  else if Ascii.eqb e "n" then Some (chr 10)
  else if Ascii.eqb e "r" then Some (chr 13)
  else if Ascii.eqb e "t" then Some (chr 9)
  else if Ascii.eqb e "\" || Ascii.eqb e "/" || Ascii.eqb e quote then Some e
  else None.

Definition prepend (p : string) (x : option (string * string))
  : option (string * string) :=
  match x with
  | Some (body, rest) => Some (p +:+ body, rest)
  | None => None
  end.

(** A string literal, read from just after its opening quote: the unquoted
    contents and the input after the closing quote, or [None] where the
    scanner reports a syntax error (unterminated literal, control
    character, bad escape).  This fuses the scanner states [stateInString],
    [stateInStringEsc], [stateInStringEscU..] with [unquoteBytes], which
    rescans the literal the scanner accepted: escapes are replaced, a
    surrogate pair of [\u] escapes becomes one rune, a lone surrogate
    becomes U+FFFD, and bytes that are not valid UTF-8 are coerced to
    U+FFFD one byte at a time.  [skip] counts the remaining bytes of a
    multi-byte rune already copied. *)
Fixpoint scanString (skip : nat) (s : string) : option (string * string) :=
  match s with
  | EmptyString => None
  | String c r =>
    match skip with
    | S k => scanString k r
    | O =>
      if Ascii.eqb c quote then Some (EmptyString, r)
      else if Ascii.eqb c "\" then
        match r with
        | EmptyString => None
        | String e r1 =>
          if Ascii.eqb e "u" then
            match r1 with
            | String h1 (String h2 (String h3 (String h4 r2))) =>
              if isHex h1 && isHex h2 && isHex h3 && isHex h4 then
                let rr := u4 h1 h2 h3 h4 in
                if IsSurrogate rr then
                  let dec := utf16DecodeRune rr (getu4 r2) in
                  match r2 with
                  | String _ (String _ (String _ (String _ (String _ (String _ r3))))) =>
                    if negb (dec =? utf8.RuneError)
                    then prepend (utf8.EncodeRune dec) (scanString 0 r3)
                    else prepend (utf8.EncodeRune utf8.RuneError) (scanString 0 r2)
                  | _ => prepend (utf8.EncodeRune utf8.RuneError) (scanString 0 r2)
                  end
                else prepend (utf8.EncodeRune rr) (scanString 0 r2)
              else None
            | _ => None
            end
          else
            match escapeByte e with
            | Some b => prepend (String b EmptyString) (scanString 0 r1)
            | None => None
            end
        end
      else if code c <? 32 then None
      else if code c <? utf8.RuneSelf then
        prepend (String c EmptyString) (scanString 0 r)
      else
        let '(rr, size) := utf8.DecodeRuneInString s in
        prepend (utf8.EncodeRune rr) (scanString (size - 1) r)
    end
  end.

Fixpoint spanDigits (s : string) : string * string :=
  match s with
  | String c r =>
    if isDigit c then let '(ds, rest) := spanDigits r in (String c ds, rest)
    else (EmptyString, s)
  | EmptyString => (EmptyString, s)
  end.

Definition isEmpty (s : string) : bool :=
  match s with EmptyString => true | _ => false end.

(** A number literal at the start of [s]: its text and the input after it,
    following the scanner states [stateNeg], [state0], [state1],
    [stateDot], [stateDot0], [stateE], [stateESign] and [stateE0]. *)
Definition scanNumber (s : string) : option (string * string) :=
  let '(sign, s1) :=
    match s with
    | String c r => if Ascii.eqb c "-" then (String c EmptyString, r)
                    else (EmptyString, s)
    | EmptyString => (EmptyString, s)
    end in
  let intPart :=
    match s1 with
    | String c r =>
      if Ascii.eqb c "0" then Some (String c EmptyString, r)
      else if inRange 49 57 c then Some (spanDigits s1)
      else None
    | EmptyString => None
    end in
  match intPart with
  | None => None
  | Some (ip, s2) =>
    let fracPart :=
      match s2 with
      | String c r =>
        if Ascii.eqb c "." then
          let '(ds, rest) := spanDigits r in
          if isEmpty ds then None else Some (String c ds, rest)
        else Some (EmptyString, s2)
      | EmptyString => Some (EmptyString, s2)
      end in
    match fracPart with
    | None => None
    | Some (fp, s3) =>
      let expPart :=
        match s3 with
        | String c r =>
          if Ascii.eqb c "e" || Ascii.eqb c "E" then
            let '(sg, r') :=
              match r with
              | String d r'' =>
                if Ascii.eqb d "+" || Ascii.eqb d "-"
                then (String d EmptyString, r'') else (EmptyString, r)
              | EmptyString => (EmptyString, r)
              end in
            let '(ds, rest) := spanDigits r' in
            if isEmpty ds then None else Some (String c (sg +:+ ds), rest)
          else Some (EmptyString, s3)
        | EmptyString => Some (EmptyString, s3)
        end in
      match expPart with
      | None => None
      | Some (ep, s4) => Some (sign +:+ ip +:+ fp +:+ ep, s4)
      end
    end
  end.

(** Does [s] start with the bytes of [p]?  Then the rest of [s]. *)
Fixpoint stripPrefix (p s : string) : option string :=
  match p, s with
  | EmptyString, _ => Some s
  | String a p', String b s' => if Ascii.eqb a b then stripPrefix p' s' else None
  | String _ _, EmptyString => None
  end.

(** *** Values *)

Inductive presult (A : Type) : Type :=
| POk (a : A) (rest : string)
| PSyntax           (* the scanner rejects the input *)
| PFuel.            (* the recursion budget of the model ran out *)
Arguments POk {A} a rest.
Arguments PSyntax {A}.
Arguments PFuel {A}.

Definition maxNestingDepth : nat := 10000.

(** Recursive descent over the grammar the scanner accepts.  [depth] is the
    number of arrays and objects open around the value ([len(parseState)]);
    opening one more than [maxNestingDepth] is a syntax error.
    [parseElements] reads the elements of an array from the first element
    to the closing bracket, [parseMembers] the members of an object from
    the first key to the closing brace. *)
Fixpoint parseValue (fuel depth : nat) (s : string) : presult value :=
  match fuel with
  | O => PFuel
  | S fuel =>
    match skipSpace s with
    | EmptyString => PSyntax
    | String c r =>
      if Ascii.eqb c "{" then
        if (maxNestingDepth <? S depth)%nat then PSyntax
        else
          match skipSpace r with
          | String c' r' =>
            if Ascii.eqb c' "}" then POk (Object []) r'
            else
              match parseMembers fuel (S depth) (String c' r') with
              | POk ms rest => POk (Object ms) rest
              | PSyntax => PSyntax
              | PFuel => PFuel
              end
          | EmptyString => PSyntax
          end
      else if Ascii.eqb c "[" then
        if (maxNestingDepth <? S depth)%nat then PSyntax
        else
          match skipSpace r with
          | String c' r' =>
            if Ascii.eqb c' "]" then POk (Array []) r'
            else
              match parseElements fuel (S depth) (String c' r') with
              | POk vs rest => POk (Array vs) rest
              | PSyntax => PSyntax
              | PFuel => PFuel
              end
          | EmptyString => PSyntax
          end
      else if Ascii.eqb c quote then
        match scanString 0 r with
        | Some (str, rest) => POk (Str str) rest
        | None => PSyntax
        end
      else if Ascii.eqb c "-" || isDigit c then
        match scanNumber (String c r) with
        | Some (lit, rest) => POk (Number lit) rest
        | None => PSyntax
        end
      else
        match stripPrefix "true" (String c r) with
        | Some rest => POk (Bool true) rest
        | None =>
          match stripPrefix "false" (String c r) with
          | Some rest => POk (Bool false) rest
          | None =>
            match stripPrefix "null" (String c r) with
            | Some rest => POk Null rest
            | None => PSyntax
            end
          end
        end
    end
  end

with parseElements (fuel depth : nat) (s : string) : presult (list value) :=
  match fuel with
  | O => PFuel
  | S fuel =>
    match parseValue fuel depth s with
    | POk v rest =>
      match skipSpace rest with
      | String c r =>
        if Ascii.eqb c "," then
          match parseElements fuel depth r with
          | POk vs rest' => POk (v :: vs) rest'
          | PSyntax => PSyntax
          | PFuel => PFuel
          end
        else if Ascii.eqb c "]" then POk [v] r
        else PSyntax
      | EmptyString => PSyntax
      end
    | PSyntax => PSyntax
    | PFuel => PFuel
    end
  end

with parseMembers (fuel depth : nat) (s : string)
  : presult (list (string * value)) :=
  match fuel with
  | O => PFuel
  | S fuel =>
    match skipSpace s with
    | String q r =>
      if Ascii.eqb q quote then
        match scanString 0 r with
        | Some (key, rest) =>
          match skipSpace rest with
          | String c r2 =>
            if Ascii.eqb c ":" then
              match parseValue fuel depth r2 with
              | POk v rest2 =>
                match skipSpace rest2 with
                | String c' r3 =>
                  if Ascii.eqb c' "," then
                    match parseMembers fuel depth r3 with
                    | POk ms rest' => POk ((key, v) :: ms) rest'
                    | PSyntax => PSyntax
                    | PFuel => PFuel
                    end
                  else if Ascii.eqb c' "}" then POk [(key, v)] r3
                  else PSyntax
                | EmptyString => PSyntax
                end
              | PSyntax => PSyntax
              | PFuel => PFuel
              end
            else PSyntax
          | EmptyString => PSyntax
          end
        | None => PSyntax
        end
      else PSyntax
    | EmptyString => PSyntax
    end
  end.

Definition parseFuel (data : string) : nat := S (2 * String.length data).

(** [checkValid] and the tree of the value: one value, surrounded by
    optional white space, and nothing else. *)
Definition parseWith (fuel : nat) (data : string) : presult value :=
  match parseValue fuel 0 data with
  | POk v rest => if isEmpty (skipSpace rest) then POk v EmptyString else PSyntax
  | PSyntax => PSyntax
  | PFuel => PFuel
  end.

Definition parse (data : string) : option value :=
  match parseWith (parseFuel data) data with
  | POk v _ => Some v
  | _ => None
  end.

(** *** Storing a value into a Go variable *)

Definition res (A : Type) : Type := error + A.

Definition bind {A B : Type} (x : res A) (f : A -> res B) : res B :=
  match x with
  | inr a => f a
  | inl e => inl e
  end.

Notation "'let*' x ':=' c 'in' k" := (bind c (fun x => k))
  (at level 10, x name, c at level 100, k at level 200).

(** The [Value] of the [UnmarshalTypeError] that [array], [object] and
    [literalStore] save when the kind of the target cannot hold the JSON
    value [v]. *)
Definition typeError {A : Type} (v : value) : res A :=
  inl (UnmarshalTypeError
         match v with
         | Null => "null"
         | Bool _ => "bool"
         | Number _ => "number"
         | Str _ => "string"
         | Array _ => "array"
         | Object _ => "object"
         end).

(** Target of kind [Uint32]: [null] leaves it as it is, a number must pass
    [strconv.ParseUint] and fit; when it does not, the error names the
    literal. *)
Definition storeUint32 (v : value) (cur : N) : res N :=
  match v with
  | Null => inr cur
  | Number lit =>
    match strconv.ParseUint32 lit with
    | Some n => inr n
    | None => inl (UnmarshalTypeError ("number " +:+ lit))
    end
  | _ => typeError v
  end.

(** Target of kind [String]. *)
Definition storeString (v : value) (cur : string) : res string :=
  match v with
  | Null => inr cur
  | Str s => inr s
  | _ => typeError v
  end.

(** Target of type [*uint32]: [null] sets the pointer to [nil]; any other
    value is stored into the pointee, allocated as zero when the pointer
    is [nil] ([indirect]). *)
Definition storeUint32Ptr (v : value) (cur : option N) : res (option N) :=
  match v with
  | Null => inr None
  | _ => let* n := storeUint32 v (default 0%N cur) in inr (Some n)
  end.

(** [foldRune]: the smallest rune of the orbit of [r]. *)
Fixpoint foldRune (fuel : nat) (r : Z) : Z :=
  match fuel with
  | O => r
  | S k => let r2 := unicode.SimpleFold r in
           if r2 <=? r then r2 else foldRune k r2
  end.

(** [foldName] ([appendFoldedName]): ASCII letters in upper case, every
    other rune replaced by [foldRune] of it. *)
Fixpoint foldName (skip : nat) (s : string) : string :=
  match s with
  | EmptyString => EmptyString
  | String c r =>
    match skip with
    | S k => foldName k r
    | O =>
      if code c <? utf8.RuneSelf then
        String (if inRange 97 122 c then chr (code c - 32) else c) (foldName 0 r)
      else
        let '(rn, n) := utf8.DecodeRuneInString s in
        utf8.EncodeRune (foldRune strings.orbitFuel rn) +:+ foldName (n - 1) r
    end
  end.

(** The field a key selects: [fields.byExactName[key]], and failing that
    [fields.byFoldedName[foldName(key)]], in which the first field with a
    given folded name wins. *)
Definition lookupField {F : Type} (fields : list (string * F)) (key : string)
  : option F :=
  match List.find (fun f => String.eqb (fst f) key) fields with
  | Some f => Some (snd f)
  | None =>
    match List.find (fun f => String.eqb (foldName 0 (fst f)) (foldName 0 key))
                    fields with
    | Some f => Some (snd f)
    | None => None
    end
  end.

(** The members of an object stored one after the other into a struct:
    [set f x cur] stores [x] into field [f] of [cur]; a key that selects no
    field is skipped together with its value. *)
Fixpoint storeMembers {T F : Type} (fields : list (string * F))
    (set : F -> value -> T -> res T)
    (ms : list (string * value)) (cur : T) : res T :=
  match ms with
  | [] => inr cur
  | (key, x) :: ms' =>
    let* cur' := match lookupField fields key with
                 | Some f => set f x cur
                 | None => inr cur
                 end in
    storeMembers fields set ms' cur'
  end.

(** Target of kind [Struct]: [null] leaves it as it is, an object is
    stored member by member, anything else is a type error. *)
Definition storeStruct {T F : Type} (fields : list (string * F))
    (set : F -> value -> T -> res T) (v : value) (cur : T) : res T :=
  match v with
  | Null => inr cur
  | Object ms => storeMembers fields set ms cur
  | _ => typeError v
  end.

(** The elements of an array stored into fresh, zero-valued elements of a
    slice that was [nil] before. *)
Fixpoint storeElements {T : Type} (zero : T) (store : value -> T -> res T)
    (vs : list value) : res (list T) :=
  match vs with
  | [] => inr []
  | v :: vs' =>
    let* x := store v zero in
    let* xs := storeElements zero store vs' in
    inr (x :: xs)
  end.

(** Target of kind [Slice] (not of bytes), [nil] before the call: [null]
    leaves it [nil], an array fills it. *)
Definition storeSlice {T : Type} (zero : T) (store : value -> T -> res T)
    (v : value) : res (list T) :=
  match v with
  | Null => inr []
  | Array vs => storeElements zero store vs
  | _ => typeError v
  end.

End json.

(** ** The metric sink *)

Module prometheus.

Inductive ValueType : Type := CounterValue | GaugeValue.

(** Modelled from the spec: the descriptor of [prometheus.NewDesc], which
    is not part of the sources at hand.  Section 6 fixes its identity: the
    fully qualified name [<namespace>_<subsystem>_<name>], the help text
    and the ordered list of label names. *)
Record Desc : Type := mkDesc {
  fqName : string;
  help : string;
  variableLabels : list string
}.

(** An observation: descriptor, kind, value and positional label values. *)
Record Metric : Type := mkMetric {
  desc : Desc;
  valType : ValueType;
  value : Z;
  labelValues : list string
}.

End prometheus.

Import prometheus.

(** *** Emission: state passing over the channel, with panics *)

Inductive outcome (A : Type) : Type :=
| Done (a : A) (ch : list Metric)
| Panic.
Arguments Done {A} a ch.
Arguments Panic {A}.

(** A computation that sends metrics on the channel it is given. *)
Definition Emit (A : Type) : Type := list Metric -> outcome A.

Definition ret {A : Type} (a : A) : Emit A := fun ch => Done a ch.

Definition seq {A B : Type} (c : Emit A) (k : A -> Emit B) : Emit B :=
  fun ch =>
    match c ch with
    | Done a ch' => k a ch'
    | Panic => Panic
    end.

Declare Scope emit_scope.
Delimit Scope emit_scope with emit.
Notation "c1 ;; c2" := (seq c1 (fun _ => c2))
  (at level 100, c2 at level 200, right associativity) : emit_scope.

(** [for _, x := range l { body x }]. *)
Fixpoint forEach {A : Type} (l : list A) (body : A -> Emit unit) : Emit unit :=
  match l with
  | [] => ret tt
  | x :: l' => (body x ;; forEach l' body)%emit
  end.

(** Modelled from the spec: [prometheus.MustNewConstMetric] followed by the
    send on the channel, as section 4.3 describes the two emission
    primitives: label values are positional and must match the label names
    of the descriptor in number; a mismatch is fatal.  A missing descriptor
    (a [nil] pointer from a map lookup that found nothing) is fatal too. *)
Definition send (d : option Desc) (t : ValueType) (v : Z) (labels : list string)
  : Emit unit :=
  fun ch =>
    match d with
    | Some d =>
      if (length labels =? length (variableLabels d))%nat
      then Done tt (ch ++ [mkMetric d t v labels])
      else Panic
    | None => Panic
    end.

(** Modelled from the spec: [newGauge] and [newCounter] of the collector
    package (section 4.3), which are not part of the sources at hand. *)
Definition newGauge (descName : option Desc) (metric : Z) (labels : list string)
  : Emit unit := send descName GaugeValue metric labels.

Definition newCounter (descName : option Desc) (metric : Z) (labels : list string)
  : Emit unit := send descName CounterValue metric labels.

Definition metric_namespace : string := "frr".

(** Modelled from the spec: [colPromDesc] of the collector package, which is
    not part of the sources at hand; the names of section 6 and of
    [expectedBFDMetrics] are [frr_<subsystem>_<name>]. *)
Definition colPromDesc (subsystem metricName helpText : string)
    (labels : list string) : Desc :=
  mkDesc (metric_namespace +:+ "_" +:+ subsystem +:+ "_" +:+ metricName)
         helpText labels.

(** ** [collector/vrrp.go] *)

Definition vrrpStatusInitialize : string := "Initialize".
Definition vrrpStatusBackup : string := "Backup".
Definition vrrpStatusMaster : string := "Master".

Definition vrrpSubsystem : string := "vrrp".
Definition vrrpStates : list string :=
  [vrrpStatusInitialize; vrrpStatusMaster; vrrpStatusBackup].

Record VrrpInstanceStats : Type := mkStats {
  AdverTx : option N;
  AdverRx : option N;
  GarpTx : option N;
  NeighborAdverTx : option N;
  Transitions : option N
}.

Record VrrpInstanceInfo : Type := mkInstance {
  Subinterface : string;       (* `json:"interface"` *)
  Status : string;
  Statistics : VrrpInstanceStats   (* `json:"stats"` *)
}.

Record VrrpVrInfo : Type := mkVr {
  Vrid : N;
  Interface : string;
  V6Info : VrrpInstanceInfo;   (* `json:"v6"` *)
  V4Info : VrrpInstanceInfo    (* `json:"v4"` *)
}.

(** The zero values of the three struct types. *)
Definition zeroStats : VrrpInstanceStats := mkStats None None None None None.
Definition zeroInstance : VrrpInstanceInfo :=
  mkInstance EmptyString EmptyString zeroStats.
Definition zeroVr : VrrpVrInfo := mkVr 0%N EmptyString zeroInstance zeroInstance.

(** *** Decoding [[]VrrpVrInfo]

    What [json.Unmarshal] does for these types: the JSON names of the fields
    (the tag where there is one, the Go name otherwise) and the store
    function of each field type. *)

Inductive statsField : Type :=
| fAdverTx | fAdverRx | fGarpTx | fNeighborAdverTx | fTransitions.

Definition statsFields : list (string * statsField) :=
  [("AdverTx", fAdverTx); ("AdverRx", fAdverRx); ("GarpTx", fGarpTx);
   ("NeighborAdverTx", fNeighborAdverTx); ("Transitions", fTransitions)].

Definition setStats (f : statsField) (v : json.value) (s : VrrpInstanceStats)
  : json.res VrrpInstanceStats :=
  match f with
  | fAdverTx =>
    json.bind (json.storeUint32Ptr v (AdverTx s)) (fun x =>
      inr (mkStats x (AdverRx s) (GarpTx s) (NeighborAdverTx s) (Transitions s)))
  | fAdverRx =>
    json.bind (json.storeUint32Ptr v (AdverRx s)) (fun x =>
      inr (mkStats (AdverTx s) x (GarpTx s) (NeighborAdverTx s) (Transitions s)))
  | fGarpTx =>
    json.bind (json.storeUint32Ptr v (GarpTx s)) (fun x =>
      inr (mkStats (AdverTx s) (AdverRx s) x (NeighborAdverTx s) (Transitions s)))
  | fNeighborAdverTx =>
    json.bind (json.storeUint32Ptr v (NeighborAdverTx s)) (fun x =>
      inr (mkStats (AdverTx s) (AdverRx s) (GarpTx s) x (Transitions s)))
  | fTransitions =>
    json.bind (json.storeUint32Ptr v (Transitions s)) (fun x =>
      inr (mkStats (AdverTx s) (AdverRx s) (GarpTx s) (NeighborAdverTx s) x))
  end.

Definition storeStats : json.value -> VrrpInstanceStats -> json.res VrrpInstanceStats :=
  json.storeStruct statsFields setStats.

Inductive instanceField : Type := fSubinterface | fStatus | fStatistics.

Definition instanceFields : list (string * instanceField) :=
  [("interface", fSubinterface); ("Status", fStatus); ("stats", fStatistics)].

Definition setInstance (f : instanceField) (v : json.value) (i : VrrpInstanceInfo)
  : json.res VrrpInstanceInfo :=
  match f with
  | fSubinterface =>
    json.bind (json.storeString v (Subinterface i)) (fun x =>
      inr (mkInstance x (Status i) (Statistics i)))
  | fStatus =>
    json.bind (json.storeString v (Status i)) (fun x =>
      inr (mkInstance (Subinterface i) x (Statistics i)))
  | fStatistics =>
    json.bind (storeStats v (Statistics i)) (fun x =>
      inr (mkInstance (Subinterface i) (Status i) x))
  end.

Definition storeInstance : json.value -> VrrpInstanceInfo -> json.res VrrpInstanceInfo :=
  json.storeStruct instanceFields setInstance.

Inductive vrField : Type := fVrid | fInterface | fV6Info | fV4Info.

Definition vrFields : list (string * vrField) :=
  [("Vrid", fVrid); ("Interface", fInterface); ("v6", fV6Info); ("v4", fV4Info)].

Definition setVr (f : vrField) (v : json.value) (r : VrrpVrInfo)
  : json.res VrrpVrInfo :=
  match f with
  | fVrid =>
    json.bind (json.storeUint32 v (Vrid r)) (fun x =>
      inr (mkVr x (Interface r) (V6Info r) (V4Info r)))
  | fInterface =>
    json.bind (json.storeString v (Interface r)) (fun x =>
      inr (mkVr (Vrid r) x (V6Info r) (V4Info r)))
  | fV6Info =>
    json.bind (storeInstance v (V6Info r)) (fun x =>
      inr (mkVr (Vrid r) (Interface r) x (V4Info r)))
  | fV4Info =>
    json.bind (storeInstance v (V4Info r)) (fun x =>
      inr (mkVr (Vrid r) (Interface r) (V6Info r) x))
  end.

Definition storeVr : json.value -> VrrpVrInfo -> json.res VrrpVrInfo :=
  json.storeStruct vrFields setVr.

(** [json.Unmarshal(data, &jsonList)] for [var jsonList []VrrpVrInfo]: the
    error, or the slice.  The first type error ends the model's decoding;
    Go records it, decodes the rest and returns that same error, and the
    caller drops the slice. *)
Definition Unmarshal (data : string) : json.res (list VrrpVrInfo) :=
  match json.parse data with
  | None => inl json.SyntaxError
  | Some v => json.storeSlice zeroVr storeVr v
  end.

(** *** The extractor *)

Definition getVRRPDesc : gmap string Desc :=
  let labels := ["proto"; "vrid"; "interface"; "subinterface"] in
  let stateLabels := labels ++ ["state"] in
  list_to_map
    [("vrrpState", colPromDesc vrrpSubsystem "state" "Status of the VRRP state machine." stateLabels);
     ("adverTx", colPromDesc vrrpSubsystem "advertisements_sent_total" "Advertisements sent total." labels);
     ("adverRx", colPromDesc vrrpSubsystem "advertisements_received_total" "Advertisements received total." labels);
     ("garpTx", colPromDesc vrrpSubsystem "gratuitous_arp_sent_total" "Gratuitous ARP sent total." labels);
     ("neighborAdverTx", colPromDesc vrrpSubsystem "neighbor_advertisements_sent_total" "Neighbor Advertisements sent total." labels);
     ("transitions", colPromDesc vrrpSubsystem "state_transitions_total" "Number of transitions of the VRRP state machine in total." labels)].

(** [if p != nil { newCounter(ch, d, float64( *p ), labels...) }]. *)
Definition counterIfPresent (p : option N) (d : option Desc)
    (labels : list string) : Emit unit :=
  match p with
  | Some x => newCounter d (Z.of_N x) labels
  | None => ret tt
  end.

Definition processInstance (proto : string) (vrid : N) (iface : string)
    (instance : VrrpInstanceInfo) (vrrpDesc : gmap string Desc) : Emit unit :=
  let vrrpLabels :=
    [proto; strconv.FormatUint vrid; iface; Subinterface instance] in
  (forEach vrrpStates (fun state =>
     let stateLabels := vrrpLabels ++ [state] in
     let value := if strings.EqualFold (Status instance) state then 1 else 0 in
     newGauge (vrrpDesc !! "vrrpState") value stateLabels) ;;
   counterIfPresent (AdverTx (Statistics instance))
     (vrrpDesc !! "adverTx") vrrpLabels ;;
   counterIfPresent (AdverRx (Statistics instance))
     (vrrpDesc !! "adverRx") vrrpLabels ;;
   counterIfPresent (GarpTx (Statistics instance))
     (vrrpDesc !! "garpTx") vrrpLabels ;;
   counterIfPresent (NeighborAdverTx (Statistics instance))
     (vrrpDesc !! "neighborAdverTx") vrrpLabels ;;
   counterIfPresent (Transitions (Statistics instance))
     (vrrpDesc !! "transitions") vrrpLabels)%emit.

(** Returns the error of the decoder ([None] is Go's [nil]). *)
Definition processVRRPInfo (jsonVRRPInfo : string) (desc : gmap string Desc)
  : Emit (option json.error) :=
  match Unmarshal jsonVRRPInfo with
  | inl err => ret (Some err)
  | inr jsonList =>
    (forEach jsonList (fun vrInfo =>
       processInstance "v4" (Vrid vrInfo) (Interface vrInfo) (V4Info vrInfo) desc ;;
       processInstance "v6" (Vrid vrInfo) (Interface vrInfo) (V6Info vrInfo) desc) ;;
     ret None)%emit
  end.

(** [vrrpCollector.Update], with the command runner and the error wrapper
    of the collector package as parameters (neither is part of the sources
    at hand). *)
Section Update.

Variable cmdError : Type.
Variable executeVRRPCommand : string -> cmdError + string.
Variable cmdOutputProcessError : string -> string -> json.error -> cmdError.

Definition Update : Emit (option cmdError) :=
  let cmd := "show vrrp json" in
  match executeVRRPCommand cmd with
  | inl err => ret (Some err)
  | inr jsonVRRPInfo =>
    seq (processVRRPInfo jsonVRRPInfo getVRRPDesc) (fun err =>
      match err with
      | Some err => ret (Some (cmdOutputProcessError cmd jsonVRRPInfo err))
      | None => ret None
      end)
  end.

End Update.

(** ** The BFD extractor

    [processBFDPeers] and [getBFDDesc] are called by [TestProcessBFDPeers]
    but are not part of the sources at hand, nor is the fixture the test
    reads. *)

Module bfd.

(** Modelled from the spec: the peer session record of section 3, with the
    fields section 4.1 lists: local and peer address, uptime in seconds,
    integer status code (1 for up, 0 for down). *)
Record bfdPeer : Type := mkPeer {
  Local : string;
  Peer : string;
  Uptime : N;
  Status : Z
}.

Record bfdDescs : Type := mkDescs {
  bfdPeerCount : Desc;
  bfdPeerUptime : Desc;
  bfdPeerState : Desc
}.

(** Modelled from the spec: the three BFD descriptors, named as section 6
    and the keys of [expectedBFDMetrics] name them.  The spec gives no help
    texts; they are the parameter [help]. *)
Definition getBFDDesc (help : string -> string) : bfdDescs :=
  let labels := ["local"; "peer"] in
  mkDescs (colPromDesc "bfd" "peer_count" (help "peer_count") [])
          (colPromDesc "bfd" "peer_uptime" (help "peer_uptime") labels)
          (colPromDesc "bfd" "peer_state" (help "peer_state") labels).

Section Process.

(** The decoder of the peer table; the spec leaves the wire names of the
    fields open. *)
Variable decodePeers : string -> json.res (list bfdPeer).

(** Modelled from the spec: the BFD extractor of section 4.1.  A decode
    error is returned before anything is emitted; otherwise one peer-count
    gauge, then per record an uptime counter and a state gauge (1 for up,
    0 for any other status), both labelled (local, peer). *)
Definition processBFDPeers (jsonBFDInterface : string) (bfdDesc : bfdDescs)
  : Emit (option json.error) :=
  match decodePeers jsonBFDInterface with
  | inl err => ret (Some err)
  | inr bfdPeers =>
    (newGauge (Some (bfdPeerCount bfdDesc)) (Z.of_nat (length bfdPeers)) [] ;;
     forEach bfdPeers (fun p =>
       let labels := [Local p; Peer p] in
       newCounter (Some (bfdPeerUptime bfdDesc)) (Z.of_N (Uptime p)) labels ;;
       newGauge (Some (bfdPeerState bfdDesc))
                (if Status p =? 1 then 1 else 0) labels) ;;
     ret None)%emit
  end.

End Process.

(** The three peers of the end-to-end example of section 8 and of
    [expectedBFDMetrics]. *)
Definition examplePeers : list bfdPeer :=
  [mkPeer "10.10.141.81" "10.10.141.61" 847716 1;
   mkPeer "10.10.141.81" "10.10.141.62" 847595 1;
   mkPeer "10.10.141.81" "10.10.141.63" 847888 0].

End bfd.

(** ** [collector/bfd_test.go] *)

Definition expectedBFDMetrics : gmap string Z :=
  list_to_map
    [("frr_bfd_peer_count{}", 3);
     ("frr_bfd_peer_uptime{local=10.10.141.81,peer=10.10.141.61}", 847716);
     ("frr_bfd_peer_state{local=10.10.141.81,peer=10.10.141.61}", 1);
     ("frr_bfd_peer_uptime{local=10.10.141.81,peer=10.10.141.62}", 847595);
     ("frr_bfd_peer_state{local=10.10.141.81,peer=10.10.141.62}", 1);
     ("frr_bfd_peer_uptime{local=10.10.141.81,peer=10.10.141.63}", 847888);
     ("frr_bfd_peer_state{local=10.10.141.81,peer=10.10.141.63}", 0)].

Fixpoint joinWith (sep : string) (l : list string) : string :=
  match l with
  | [] => EmptyString
  | [x] => x
  | x :: l' => x +:+ sep +:+ joinWith sep l'
  end.

(** The label pairs of a metric as [metric.GetLabel()] returns them:
    sorted by label name. *)
Fixpoint insertLabel (p : string * string) (l : list (string * string))
  : list (string * string) :=
  match l with
  | [] => [p]
  | q :: l' => if String.leb (fst p) (fst q) then p :: l
               else q :: insertLabel p l'
  end.

Definition GetLabel (m : Metric) : list (string * string) :=
  fold_right insertLabel [] (combine (variableLabels (desc m)) (labelValues m)).

(** The key [TestProcessBFDPeers] files a metric under:
    [metric_name{labelname=labelvalue,...}]. *)
Definition metricKey (m : Metric) : string :=
  fqName (desc m) +:+ "{" +:+
  joinWith "," (map (fun p => fst p +:+ "=" +:+ snd p) (GetLabel m)) +:+ "}".

(** The map [gotMetrics] the test builds from the channel. *)
Definition gotMetrics (ch : list Metric) : gmap string Z :=
  fold_left (fun got m => <[metricKey m := value m]> got) ch ∅.

(** ** Reading outcomes *)

(** The metrics a computation sends on an empty channel. *)
Definition emitted {A : Type} (c : Emit A) : list Metric :=
  match c [] with
  | Done _ ch => ch
  | Panic => []
  end.

Definition isGauge (m : Metric) : bool :=
  match valType m with GaugeValue => true | CounterValue => false end.

Definition isCounter (m : Metric) : bool := negb (isGauge m).

Definition named (name : string) (m : Metric) : bool :=
  String.eqb (fqName (desc m)) name.

Definition sumZ (l : list Z) : Z := fold_right Z.add 0 l.

(** The values of the state observations among [ms], in emission order. *)
Definition stateValues (ms : list Metric) : list Z :=
  map value (List.filter (named "frr_vrrp_state") ms).

Definition b2z (b : bool) : Z := if b then 1 else 0.

(** A JSON text written with apostrophes in place of double quotes. *)
Definition dq (s : string) : string :=
  string_of_list_ascii
    (map (fun c => if Ascii.eqb c "'" then json.quote else c)
         (list_ascii_of_string s)).

(** ** What the VRRP extractor is expected to emit

    The observations of one family sub-record, written after sections 4.2
    and 6 of the specification; the theorems below compare the extractor
    with them. *)

Definition vrrpLabelNames : list string :=
  ["proto"; "vrid"; "interface"; "subinterface"].

Definition vrrpStateDesc : Desc :=
  mkDesc "frr_vrrp_state" "Status of the VRRP state machine."
         (vrrpLabelNames ++ ["state"]).

Definition allStatsFields : list statsField :=
  [fAdverTx; fAdverRx; fGarpTx; fNeighborAdverTx; fTransitions].

(** The key of a statistics field in the descriptor map. *)
Definition counterKey (f : statsField) : string :=
  match f with
  | fAdverTx => "adverTx"
  | fAdverRx => "adverRx"
  | fGarpTx => "garpTx"
  | fNeighborAdverTx => "neighborAdverTx"
  | fTransitions => "transitions"
  end.

Definition counterName (f : statsField) : string :=
  match f with
  | fAdverTx => "frr_vrrp_advertisements_sent_total"
  | fAdverRx => "frr_vrrp_advertisements_received_total"
  | fGarpTx => "frr_vrrp_gratuitous_arp_sent_total"
  | fNeighborAdverTx => "frr_vrrp_neighbor_advertisements_sent_total"
  | fTransitions => "frr_vrrp_state_transitions_total"
  end.

Definition counterHelp (f : statsField) : string :=
  match f with
  | fAdverTx => "Advertisements sent total."
  | fAdverRx => "Advertisements received total."
  | fGarpTx => "Gratuitous ARP sent total."
  | fNeighborAdverTx => "Neighbor Advertisements sent total."
  | fTransitions => "Number of transitions of the VRRP state machine in total."
  end.

Definition counterDesc (f : statsField) : Desc :=
  mkDesc (counterName f) (counterHelp f) vrrpLabelNames.

(** The pointer field of the statistics a field name stands for. *)
Definition statsValue (f : statsField) (s : VrrpInstanceStats) : option N :=
  match f with
  | fAdverTx => AdverTx s
  | fAdverRx => AdverRx s
  | fGarpTx => GarpTx s
  | fNeighborAdverTx => NeighborAdverTx s
  | fTransitions => Transitions s
  end.

Definition baseLabels (proto : string) (vrid : N) (iface : string)
    (inst : VrrpInstanceInfo) : list string :=
  [proto; strconv.FormatUint vrid; iface; Subinterface inst].

Definition stateObservation (proto : string) (vrid : N) (iface : string)
    (inst : VrrpInstanceInfo) (state : string) : Metric :=
  mkMetric vrrpStateDesc GaugeValue
           (b2z (strings.EqualFold (Status inst) state))
           (baseLabels proto vrid iface inst ++ [state]).

Definition stateBlock (proto : string) (vrid : N) (iface : string)
    (inst : VrrpInstanceInfo) : list Metric :=
  map (stateObservation proto vrid iface inst)
      ["Initialize"; "Master"; "Backup"].

Definition counterObservations (proto : string) (vrid : N) (iface : string)
    (inst : VrrpInstanceInfo) (f : statsField) : list Metric :=
  match statsValue f (Statistics inst) with
  | Some x => [mkMetric (counterDesc f) CounterValue (Z.of_N x)
                        (baseLabels proto vrid iface inst)]
  | None => []
  end.

Definition counterBlock (proto : string) (vrid : N) (iface : string)
    (inst : VrrpInstanceInfo) : list Metric :=
  flat_map (counterObservations proto vrid iface inst) allStatsFields.

Definition instanceMetrics (proto : string) (vrid : N) (iface : string)
    (inst : VrrpInstanceInfo) : list Metric :=
  stateBlock proto vrid iface inst ++ counterBlock proto vrid iface inst.

Definition recordMetrics (r : VrrpVrInfo) : list Metric :=
  instanceMetrics "v4" (Vrid r) (Interface r) (V4Info r) ++
  instanceMetrics "v6" (Vrid r) (Interface r) (V6Info r).

(** The expected BFD observations of section 4.1. *)
Definition peerMetrics (d : bfd.bfdDescs) (p : bfd.bfdPeer) : list Metric :=
  [mkMetric (bfd.bfdPeerUptime d) CounterValue (Z.of_N (bfd.Uptime p))
            [bfd.Local p; bfd.Peer p];
   mkMetric (bfd.bfdPeerState d) GaugeValue (b2z (bfd.Status p =? 1))
            [bfd.Local p; bfd.Peer p]].

Definition peerTableMetrics (d : bfd.bfdDescs) (peers : list bfd.bfdPeer)
  : list Metric :=
  mkMetric (bfd.bfdPeerCount d) GaugeValue (Z.of_nat (length peers)) []
  :: flat_map (peerMetrics d) peers.

(** ** Inputs used as examples *)

(** The end-to-end VRRP example of section 8: vrid 1 on eth0, v4 in state
    Master with the single counter AdverTx = 5, and an empty v6 block. *)
Definition exampleInput : string :=
  dq "[{'vrid':1,'interface':'eth0','v4':{'status':'Master','stats':{'adverTx':5}},'v6':{}}]".

Definition exampleVr : VrrpVrInfo :=
  mkVr 1 "eth0" zeroInstance
       (mkInstance EmptyString "Master"
                   (mkStats (Some 5%N) None None None None)).

(** A record with an unknown member and without [interface], [v4], [v6]. *)
Definition sparseInput : string := dq "[{'vrid':7,'bogus':[true,{}]}]".

Definition sparseVr : VrrpVrInfo := mkVr 7 EmptyString zeroInstance zeroInstance.

(** ** Predicates of the statements *)

(** Does the key of a member select a field? *)
Definition knownKey {F : Type} (fields : list (string * F))
    (m : string * json.value) : bool :=
  match json.lookupField fields (fst m) with
  | Some _ => true
  | None => false
  end.

Definition isArrayOrNull (v : json.value) : bool :=
  match v with
  | json.Null | json.Array _ => true
  | _ => false
  end.

(** Counters are not negative, gauges are 0 or 1. *)
Definition valueInRange (m : Metric) : Prop :=
  match valType m with
  | CounterValue => 0 <= value m
  | GaugeValue => value m = 0 \/ value m = 1
  end.

(** The same for the BFD extractor, whose peer-count gauge is the number of
    peers. *)
Definition bfdValueInRange (peers : nat) (m : Metric) : Prop :=
  match valType m with
  | CounterValue => 0 <= value m
  | GaugeValue =>
    if named "frr_bfd_peer_state" m then value m = 0 \/ value m = 1
    else named "frr_bfd_peer_count" m = true /\ value m = Z.of_nat peers
  end.

(** The labels of an observation of the family sub-record [inst] of [r],
    reported under [proto]: as many values as the descriptor has names,
    in the order proto, vrid, interface, subinterface and, for the state
    metric, state. *)
Definition labelledFor (r : VrrpVrInfo) (proto : string)
    (inst : VrrpInstanceInfo) (m : Metric) : Prop :=
  length (labelValues m) = length (variableLabels (desc m)) /\
  match valType m with
  | GaugeValue =>
    variableLabels (desc m) = ["proto"; "vrid"; "interface"; "subinterface"; "state"] /\
    exists state, In state vrrpStates /\ state <> EmptyString /\
      labelValues m = [proto; strconv.FormatUint (Vrid r); Interface r;
                       Subinterface inst; state]
  | CounterValue =>
    variableLabels (desc m) = ["proto"; "vrid"; "interface"; "subinterface"] /\
    labelValues m = [proto; strconv.FormatUint (Vrid r); Interface r;
                     Subinterface inst]
  end.

Definition wellLabelled (rs : list VrrpVrInfo) (m : Metric) : Prop :=
  exists r, In r rs /\
    (labelledFor r "v4" (V4Info r) m \/ labelledFor r "v6" (V6Info r) m) /\
    strconv.FormatUint (Vrid r) <> EmptyString.

(** ** Predicates of the further properties *)

(** A computation only appends to the channel, and what it appends and
    returns does not depend on what the channel holds. *)
Definition appendOnly {A : Type} (c : Emit A) : Prop :=
  forall ch,
    c ch = match c [] with
           | Done a ms => Done a (ch ++ ms)
           | Panic => Panic
           end.

(** The number of statistics pointers that are not [nil]. *)
Definition countPresent (s : VrrpInstanceStats) : nat :=
  length (List.filter (fun f => match statsValue f s with
                                | Some _ => true
                                | None => false
                                end) allStatsFields).

Definition presentCounters (r : VrrpVrInfo) : nat :=
  (countPresent (Statistics (V4Info r)) + countPresent (Statistics (V6Info r)))%nat.

(** The values a [uint32] can hold. *)
Definition uint32 (n : N) : Prop := (n < 4294967296)%N.

Definition uint32Ptr (p : option N) : Prop :=
  match p with
  | Some n => uint32 n
  | None => True
  end.

Definition wfStats (s : VrrpInstanceStats) : Prop :=
  uint32Ptr (AdverTx s) /\ uint32Ptr (AdverRx s) /\ uint32Ptr (GarpTx s) /\
  uint32Ptr (NeighborAdverTx s) /\ uint32Ptr (Transitions s).

Definition wfVr (r : VrrpVrInfo) : Prop :=
  uint32 (Vrid r) /\ wfStats (Statistics (V6Info r)) /\ wfStats (Statistics (V4Info r)).

(** Bytes below 128, and a string with its upper-case ASCII letters put in
    lower case. *)
Definition isASCII (s : string) : bool :=
  forallb (fun c => code c <? 128) (list_ascii_of_string s).

Definition lowerByte (c : ascii) : Z :=
  if inRange 65 90 c then code c + 32 else code c.

Definition lowerBytes (s : string) : list Z :=
  map lowerByte (list_ascii_of_string s).

(** The field selected by the folded key among folded JSON names. *)
Definition selectFolded {F : Type} (folded : list (string * F)) (key : string)
  : option F :=
  match List.find (fun f => String.eqb (fst f) (json.foldName 0 key)) folded with
  | Some f => Some (snd f)
  | None => None
  end.

(** The two comparison loops at the end of [TestProcessBFDPeers]: the
    entries of [gotMetrics] that [expected] lacks or holds with another
    value, and the entries of [expected] whose key [gotMetrics] lacks.
    Each is reported with [t.Errorf]; Go visits a map in no fixed order,
    which does not change whether there is anything to report. *)
Definition wrongOrUnexpected (got expected : gmap string Z) : list (string * Z) :=
  List.filter (fun e => negb (bool_decide (expected !! fst e = Some (snd e))))
              (map_to_list got).

Definition missingMetrics (got expected : gmap string Z) : list (string * Z) :=
  List.filter (fun e => negb (bool_decide (is_Some (got !! fst e))))
              (map_to_list expected).

(** What tells one time series from another: the metric name and the
    label values. *)
Definition seriesOf (m : Metric) : string * list string :=
  (fqName (desc m), labelValues m).

(** ** Equality under case folding, said without [strings.EqualFold] *)

(** The runes of a string, as [for _, r := range s] yields them: each
    valid UTF-8 sequence is one rune and each byte that starts no valid
    sequence is U+FFFD.  [skip] counts the bytes of the current rune still
    to be passed over. *)
Fixpoint runesFrom (skip : nat) (s : string) : list Z :=
  match s with
  | EmptyString => []
  | String _ s' =>
    match skip with
    | S k => runesFrom k s'
    | O => let '(r, size) := utf8.DecodeRuneInString s in
           r :: runesFrom (size - 1) s'
    end
  end.

Definition runes (s : string) : list Z := runesFrom 0 s.

(** The runes that equal the ASCII byte [c] when case is ignored: a Latin
    letter in either case, with the Kelvin sign U+212A for k and the long s
    U+017F for s, which Unicode folds onto them; any other byte only
    itself. *)
Definition foldOrbit (c : Z) : list Z :=
  if (c =? 75) || (c =? 107) then [75; 107; 8490]
  else if (c =? 83) || (c =? 115) then [83; 115; 383]
  else if (65 <=? c) && (c <=? 90) then [c; c + 32]
  else if (97 <=? c) && (c <=? 122) then [c - 32; c]
  else [c].

(** Rune by rune, [rs] equals the ASCII string [t] when case is ignored. *)
Fixpoint runesMatch (rs : list Z) (t : string) : bool :=
  match rs, t with
  | [], EmptyString => true
  | r :: rs', String d t' =>
    existsb (Z.eqb r) (foldOrbit (code d)) && runesMatch rs' t'
  | _, _ => false
  end.

(** The status equals the (ASCII) state name when case is ignored: as many
    runes as the name has bytes, each the letter of the name in either
    case. *)
Definition equalsIgnoringCase (status name : string) : bool :=
  runesMatch (runes status) name.

(** ** Which JSON values the Go types can hold, said without the decoder *)

(** The JSON names of the fields, folded to upper case. *)
Definition vrFolded : list (string * vrField) :=
  [("VRID", fVrid); ("INTERFACE", fInterface); ("V6", fV6Info); ("V4", fV4Info)].

Definition instanceFolded : list (string * instanceField) :=
  [("INTERFACE", fSubinterface); ("STATUS", fStatus); ("STATS", fStatistics)].

Definition statsFolded : list (string * statsField) :=
  [("ADVERTX", fAdverTx); ("ADVERRX", fAdverRx); ("GARPTX", fGarpTx);
   ("NEIGHBORADVERTX", fNeighborAdverTx); ("TRANSITIONS", fTransitions)].

(** A [uint32] or [*uint32] holds [null] and a number written as decimal
    digits only (no sign, fraction or exponent) whose value is below
    [2^32]. *)
Definition fitsUint32 (v : json.value) : bool :=
  match v with
  | json.Null => true
  | json.Number lit =>
    match NilEmpty.uint_of_string lit with
    | Some Decimal.Nil => false
    | Some d => (N.of_uint d <? 4294967296)%N
    | None => false
    end
  | _ => false
  end.

(** A [string] holds [null] and a string. *)
Definition fitsString (v : json.value) : bool :=
  match v with
  | json.Null | json.Str _ => true
  | _ => false
  end.

(** A struct holds [null] and an object in which every member that selects
    a field has a value the field can hold; the other members may have
    any value. *)
Definition fitsStruct {F : Type} (folded : list (string * F))
    (fitsField : F -> json.value -> bool) (v : json.value) : bool :=
  match v with
  | json.Null => true
  | json.Object ms =>
    forallb (fun m => match selectFolded folded (fst m) with
                      | Some f => fitsField f (snd m)
                      | None => true
                      end) ms
  | _ => false
  end.

Definition fitsStats : json.value -> bool :=
  fitsStruct statsFolded (fun _ => fitsUint32).

Definition fitsInstance : json.value -> bool :=
  fitsStruct instanceFolded
    (fun f => match f with
              | fSubinterface | fStatus => fitsString
              | fStatistics => fitsStats
              end).

Definition fitsVr : json.value -> bool :=
  fitsStruct vrFolded
    (fun f => match f with
              | fVrid => fitsUint32
              | fInterface => fitsString
              | fV6Info | fV4Info => fitsInstance
              end).

(** The slice holds [null] and an array of values a record can hold. *)
Definition fitsTable (v : json.value) : bool :=
  match v with
  | json.Null => true
  | json.Array vs => forallb fitsVr vs
  | _ => false
  end.

(** Field [f] has the same value in [r'] as in [r]. *)
Definition sameVrField (f : vrField) (r r' : VrrpVrInfo) : Prop :=
  match f with
  | fVrid => Vrid r' = Vrid r
  | fInterface => Interface r' = Interface r
  | fV6Info => V6Info r' = V6Info r
  | fV4Info => V4Info r' = V4Info r
  end.

Definition sameInstanceField (f : instanceField) (i i' : VrrpInstanceInfo) : Prop :=
  match f with
  | fSubinterface => Subinterface i' = Subinterface i
  | fStatus => Status i' = Status i
  | fStatistics => Statistics i' = Statistics i
  end.

Definition sameStatsField (f : statsField) (s s' : VrrpInstanceStats) : Prop :=
  statsValue f s' = statsValue f s.

(** No member of [ms] selects the field [f]. *)
Definition noMemberFor {F : Type} (folded : list (string * F)) (f : F)
    (ms : list (string * json.value)) : Prop :=
  forall m, In m ms -> selectFolded folded (fst m) <> Some f.

Definition succeeds {A : Type} (x : json.res A) : bool :=
  match x with
  | inr _ => true
  | inl _ => false
  end.

(** The error of a store function, if any, is a type error. *)
Definition isTypeError {A : Type} (x : json.res A) : Prop :=
  match x with
  | inl json.SyntaxError => False
  | _ => True
  end.

(** * Properties *)

(** ** Running the emission monad *)

Lemma lookup_vrrpState : getVRRPDesc !! "vrrpState" = Some vrrpStateDesc.
Proof. reflexivity. Qed.
Lemma lookup_counter f : getVRRPDesc !! counterKey f = Some (counterDesc f).
Proof. destruct f; reflexivity. Qed.

Lemma send_run d t v labels ch :
  length labels = length (variableLabels d) ->
  send (Some d) t v labels ch = Done tt (ch ++ [mkMetric d t v labels]).
Proof.
  intros H. unfold send. rewrite H, Nat.eqb_refl. reflexivity.
Qed.

Lemma seq_run {A B} (c : Emit A) (k : A -> Emit B) ch a ch' :
  c ch = Done a ch' -> seq c k ch = k a ch'.
Proof. intros H. unfold seq. rewrite H. reflexivity. Qed.

Lemma forEach_run {A} (body : A -> Emit unit) (f : A -> list Metric) l :
  (forall x ch, body x ch = Done tt (ch ++ f x)) ->
  forall ch, forEach l body ch = Done tt (ch ++ flat_map f l).
Proof.
  intros Hb. induction l as [|x l IH]; intros ch; simpl.
  - unfold ret. rewrite app_nil_r. reflexivity.
  - rewrite (seq_run _ _ _ _ _ (Hb x ch)). rewrite IH, <- app_assoc. reflexivity.
Qed.

Lemma counterIfPresent_run proto vrid iface inst f ch :
  counterIfPresent (statsValue f (Statistics inst)) (Some (counterDesc f))
                   (baseLabels proto vrid iface inst) ch
  = Done tt (ch ++ counterObservations proto vrid iface inst f).
Proof.
  unfold counterIfPresent, counterObservations.
  destruct (statsValue f (Statistics inst)) as [x|].
  - unfold newCounter. apply send_run. reflexivity.
  - unfold ret. rewrite app_nil_r. reflexivity.
Qed.

Lemma processInstance_run proto vrid iface inst ch :
  processInstance proto vrid iface inst getVRRPDesc ch
  = Done tt (ch ++ instanceMetrics proto vrid iface inst).
Proof.
  unfold processInstance.
  rewrite lookup_vrrpState.
  rewrite (lookup_counter fAdverTx : getVRRPDesc !! "adverTx" = _).
  rewrite (lookup_counter fAdverRx : getVRRPDesc !! "adverRx" = _).
  rewrite (lookup_counter fGarpTx : getVRRPDesc !! "garpTx" = _).
  rewrite (lookup_counter fNeighborAdverTx : getVRRPDesc !! "neighborAdverTx" = _).
  rewrite (lookup_counter fTransitions : getVRRPDesc !! "transitions" = _).
  fold (baseLabels proto vrid iface inst).
  erewrite seq_run.
  2:{ apply (forEach_run _ (fun st => [stateObservation proto vrid iface inst st])).
      intros st ch0. unfold newGauge. apply send_run. reflexivity. }
  erewrite seq_run by apply (counterIfPresent_run _ _ _ _ fAdverTx).
  erewrite seq_run by apply (counterIfPresent_run _ _ _ _ fAdverRx).
  erewrite seq_run by apply (counterIfPresent_run _ _ _ _ fGarpTx).
  erewrite seq_run by apply (counterIfPresent_run _ _ _ _ fNeighborAdverTx).
  rewrite (counterIfPresent_run _ _ _ _ fTransitions).
  unfold instanceMetrics, stateBlock, counterBlock, allStatsFields.
  simpl flat_map. rewrite !app_nil_r.
  f_equal. rewrite <- !app_assoc. reflexivity.
Qed.

Lemma processVRRPInfo_run data rs ch :
  Unmarshal data = inr rs ->
  processVRRPInfo data getVRRPDesc ch = Done None (ch ++ flat_map recordMetrics rs).
Proof.
  intros H. unfold processVRRPInfo. rewrite H.
  erewrite seq_run.
  2:{ apply (forEach_run _ recordMetrics). intros r ch0.
      erewrite seq_run by apply processInstance_run.
      rewrite processInstance_run. unfold recordMetrics.
      rewrite <- app_assoc. reflexivity. }
  reflexivity.
Qed.

Lemma decode_failure_to_caller data desc ch err :
  Unmarshal data = inl err ->
  processVRRPInfo data desc ch = Done (Some err) ch.
Proof.
  intros H. unfold processVRRPInfo. rewrite H. reflexivity.
Qed.

(** ** Case folding *)

Module foldFacts.
Import strings.

Lemma asciiFoldEq_bound sr tr : asciiFoldEq sr tr = true -> 65 <= sr <= 90 /\ tr = sr + 32.
Proof. unfold asciiFoldEq. intros H. apply andb_prop in H as [H12 H3]. apply andb_prop in H12 as [H1 H2]. lia. Qed.

(** A rune that folds onto an upper-case ASCII letter other than K and S
    is that letter or its lower case. *)
Lemma runeFoldEq_upper sr u :
  65 <= u <= 90 -> u <> 75 -> u <> 83 ->
  runeFoldEq sr u = true -> sr = u \/ sr = u + 32.
Proof.
  intros Hu HK HS. unfold runeFoldEq.
  destruct (Z.eqb_spec u sr) as [->|Hne]; [auto|].
  destruct (Z.ltb_spec u sr) as [Hlt|Hge].
  - (* sr' = u, tr' = sr *)
    destruct (Z.ltb_spec sr utf8.RuneSelf) as [Ha|Ha].
    + intros H. apply asciiFoldEq_bound in H. lia.
    + unfold utf8.RuneSelf in Ha.
      assert (Hf : unicode.SimpleFold u = u + 32).
      { unfold unicode.SimpleFold.
        repeat match goal with |- context [?a =? ?b] => destruct (Z.eqb_spec a b); [lia|] end.
        destruct (Z.leb_spec 65 u); [|lia]. destruct (Z.leb_spec u 90); [|lia]. reflexivity. }
      assert (Hg : unicode.SimpleFold (u + 32) = u).
      { unfold unicode.SimpleFold.
        repeat match goal with |- context [?a =? ?b] => destruct (Z.eqb_spec a b); [lia|] end.
        destruct (Z.leb_spec 65 (u+32)); [|lia]. destruct (Z.leb_spec (u+32) 90); [lia|].
        destruct (Z.leb_spec 97 (u+32)); [|lia]. destruct (Z.leb_spec (u+32) 122); [|lia].
        simpl. lia. }
      rewrite Hf. unfold orbitFuel. simpl foldLoop.
      destruct (Z.eqb_spec (u + 32) u); [lia|].
      destruct (Z.ltb_spec (u + 32) sr); [|lia]. simpl.
      rewrite Hg, Z.eqb_refl. simpl. intros Hx. apply Z.eqb_eq in Hx. lia.
  - (* sr' = sr, tr' = u *)
    destruct (Z.ltb_spec u utf8.RuneSelf) as [Ha|Ha]; [|unfold utf8.RuneSelf in Ha; lia].
    intros H. apply asciiFoldEq_bound in H. lia.
Qed.

Lemma EqualFold_cons c s d t :
  EqualFold (String c s) (String d t) =
  if utf8.RuneSelf <=? Z.lor (code c) (code d) then hasUnicode 0 (String c s) (String d t)
  else if code d =? code c then EqualFold s t
  else let '(sr, tr) := if code d <? code c then (code d, code c) else (code c, code d) in
       if asciiFoldEq sr tr then EqualFold s t else false.
Proof. reflexivity. Qed.

Lemma hasUnicode_cons c s d t :
  hasUnicode 0 (String c s) (String d t) =
  let '(sr, size) := utf8.DecodeRuneInString (String c s) in
  let '(tr, t') :=
     if code d <? utf8.RuneSelf then (code d, t)
     else let '(r, n) := utf8.DecodeRuneInString (String d t) in (r, dropBytes n (String d t)) in
  if runeFoldEq sr tr then hasUnicode (size - 1) s t' else false.
Proof. reflexivity. Qed.

Lemma DecodeRune_ascii c s :
  code c < 128 -> utf8.DecodeRuneInString (String c s) = (code c, 1%nat).
Proof.
  intros H. unfold utf8.DecodeRuneInString.
  destruct (Z.ltb_spec (code c) 128); [reflexivity|lia].
Qed.

Lemma runeFoldEq_ascii_pair a b :
  asciiFoldEq a b = true -> runeFoldEq a b = true /\ runeFoldEq b a = true.
Proof.
  intros E. pose proof (asciiFoldEq_bound _ _ E) as Hb.
  unfold runeFoldEq.
  destruct (Z.eqb_spec b a); [lia|]. destruct (Z.eqb_spec a b); [lia|].
  destruct (Z.ltb_spec b a); [lia|]. destruct (Z.ltb_spec a b); [|lia].
  unfold utf8.RuneSelf. destruct (Z.ltb_spec b 128); [|lia]. auto.
Qed.

Lemma EqualFold_head c s d t :
  code d < 128 ->
  EqualFold (String c s) (String d t) = true ->
  runeFoldEq (fst (utf8.DecodeRuneInString (String c s))) (code d) = true.
Proof.
  intros Hd. rewrite EqualFold_cons.
  destruct (utf8.RuneSelf <=? Z.lor (code c) (code d)).
  - rewrite hasUnicode_cons.
    destruct (utf8.DecodeRuneInString (String c s)) as [sr size].
    destruct (Z.ltb_spec (code d) utf8.RuneSelf) as [_|Hge]; [|unfold utf8.RuneSelf in Hge; lia].
    simpl fst. destruct (runeFoldEq sr (code d)); [reflexivity|discriminate].
  - destruct (Z.eqb_spec (code d) (code c)) as [Heq|Hne].
    + intros _. rewrite DecodeRune_ascii by lia. simpl fst.
      unfold runeFoldEq. rewrite Heq, Z.eqb_refl. reflexivity.
    + destruct (code d <? code c).
      * destruct (asciiFoldEq (code d) (code c)) eqn:E; [|discriminate]. intros _.
        pose proof (asciiFoldEq_bound _ _ E).
        rewrite DecodeRune_ascii by lia. simpl fst.
        apply runeFoldEq_ascii_pair in E. tauto.
      * destruct (asciiFoldEq (code c) (code d)) eqn:E; [|discriminate]. intros _.
        pose proof (asciiFoldEq_bound _ _ E).
        rewrite DecodeRune_ascii by lia. simpl fst.
        apply runeFoldEq_ascii_pair in E. tauto.
Qed.

(** Two names that begin with different upper-case letters, neither of them
    K or S, are never both matched by one string. *)
Lemma EqualFold_heads_differ s d1 t1 d2 t2 :
  65 <= code d1 <= 90 -> code d1 <> 75 -> code d1 <> 83 ->
  65 <= code d2 <= 90 -> code d2 <> 75 -> code d2 <> 83 ->
  code d1 <> code d2 ->
  EqualFold s (String d1 t1) && EqualFold s (String d2 t2) = false.
Proof.
  intros H1 H1k H1s H2 H2k H2s Hne.
  destruct s as [|c s]; [reflexivity|].
  destruct (EqualFold (String c s) (String d1 t1)) eqn:E1; [|reflexivity].
  destruct (EqualFold (String c s) (String d2 t2)) eqn:E2; [|reflexivity].
  exfalso.
  apply EqualFold_head in E1; [|lia]. apply EqualFold_head in E2; [|lia].
  apply runeFoldEq_upper in E1; [|lia..]. apply runeFoldEq_upper in E2; [|lia..].
  lia.
Qed.

Lemma states_exclusive s :
  EqualFold s "Initialize" && EqualFold s "Master" = false /\
  EqualFold s "Initialize" && EqualFold s "Backup" = false /\
  EqualFold s "Master" && EqualFold s "Backup" = false.
Proof.
  repeat split; apply EqualFold_heads_differ; vm_compute; intuition congruence.
Qed.

End foldFacts.

(** ** The parser consumes its input and never runs out of budget *)

Module jsonFacts.
Import json.

Lemma skipSpace_length s : (String.length (skipSpace s) <= String.length s)%nat.
Proof.
  induction s as [|c s IH]; simpl; [lia|].
  destruct (isSpace c); simpl; lia.
Qed.

Lemma spanDigits_length s ds rest :
  spanDigits s = (ds, rest) -> (String.length rest <= String.length s)%nat.
Proof.
  revert ds rest. induction s as [|c s IH]; simpl; intros ds rest H.
  - injection H as <- <-. simpl. lia.
  - destruct (isDigit c).
    + destruct (spanDigits s) as [ds' rest'] eqn:E. injection H as <- <-.
      specialize (IH _ _ eq_refl). lia.
    + injection H as <- <-. simpl. lia.
Qed.

Lemma stripPrefix_length p s rest :
  stripPrefix p s = Some rest ->
  (String.length rest + String.length p = String.length s)%nat.
Proof.
  revert s. induction p as [|a p IH]; intros s H; simpl in H.
  - injection H as <-. simpl. lia.
  - destruct s as [|b s]; [discriminate|].
    destruct (Ascii.eqb a b); [|discriminate].
    apply IH in H. simpl. lia.
Qed.

Lemma prepend_some p x body rest :
  prepend p x = Some (body, rest) -> exists body', x = Some (body', rest).
Proof.
  unfold prepend. destruct x as [[b r]|]; [|discriminate].
  intros H. injection H as <- <-. eauto.
Qed.

Lemma scanString_cons k c r :
  scanString k (String c r) =
    match k with
    | S k' => scanString k' r
    | O =>
      if Ascii.eqb c quote then Some (EmptyString, r)
      else if Ascii.eqb c "\" then
        match r with
        | EmptyString => None
        | String e r1 =>
          if Ascii.eqb e "u" then
            match r1 with
            | String h1 (String h2 (String h3 (String h4 r2))) =>
              if isHex h1 && isHex h2 && isHex h3 && isHex h4 then
                let rr := u4 h1 h2 h3 h4 in
                if IsSurrogate rr then
                  let dec := utf16DecodeRune rr (getu4 r2) in
                  match r2 with
                  | String _ (String _ (String _ (String _ (String _ (String _ r3))))) =>
                    if negb (dec =? utf8.RuneError)
                    then prepend (utf8.EncodeRune dec) (scanString 0 r3)
                    else prepend (utf8.EncodeRune utf8.RuneError) (scanString 0 r2)
                  | _ => prepend (utf8.EncodeRune utf8.RuneError) (scanString 0 r2)
                  end
                else prepend (utf8.EncodeRune rr) (scanString 0 r2)
              else None
            | _ => None
            end
          else
            match escapeByte e with
            | Some b => prepend (String b EmptyString) (scanString 0 r1)
            | None => None
            end
        end
      else if code c <? 32 then None
      else if code c <? utf8.RuneSelf then
        prepend (String c EmptyString) (scanString 0 r)
      else
        let '(rr, size) := utf8.DecodeRuneInString (String c r) in
        prepend (utf8.EncodeRune rr) (scanString (size - 1) r)
    end.
Proof. destruct k; reflexivity. Qed.

Ltac scan_step IH H :=
  first
    [ discriminate
    | match type of H with Some _ = Some _ =>
        injection H as <- <-; cbn [String.length] in *; lia end
    | match type of H with prepend _ _ = Some _ =>
        apply prepend_some in H as [? H]; apply IH in H;
        cbn [String.length] in *; lia end
    | match type of H with scanString _ _ = Some _ =>
        apply IH in H; cbn [String.length] in *; lia end
    | match type of H with
      | context [match ?x with _ => _ end] => destruct x
      | context [if ?x then _ else _] => destruct x
      end ].

Lemma scanString_length_aux n : forall s k body rest,
  (String.length s <= n)%nat ->
  scanString k s = Some (body, rest) ->
  (String.length rest < String.length s)%nat.
Proof.
  induction n as [|n IH]; intros s k body rest Hn H.
  - destruct s; [discriminate|cbn [String.length] in Hn; lia].
  - destruct s as [|c r]; [discriminate|].
    cbn [String.length] in Hn. rewrite scanString_cons in H.
    cbv zeta in H.
    repeat scan_step IH H.
Qed.

Lemma scanString_length s k body rest :
  scanString k s = Some (body, rest) ->
  (String.length rest < String.length s)%nat.
Proof. apply (scanString_length_aux (String.length s)). lia. Qed.

Lemma nonzero_digit_isDigit c : inRange 49 57 c = true -> isDigit c = true.
Proof.
  unfold isDigit, inRange. intros H. apply andb_prop in H as [H1 H2].
  apply andb_true_intro. split; [apply Z.leb_le; apply Z.leb_le in H1; lia|exact H2].
Qed.

Ltac num_step :=
  match goal with
  | H : None = Some _ |- _ => discriminate H
  | H : Some _ = Some _ |- _ => inversion H; subst; clear H
  | H : (_, _) = (_, _) |- _ => inversion H; subst; clear H
  | H : spanDigits _ = (_, _) |- _ => apply spanDigits_length in H
  | H : context [match ?x with _ => _ end] |- _ => destruct x eqn:?
  | H : context [if ?x then _ else _] |- _ => destruct x eqn:?
  end.

Lemma scanNumber_length s lit rest :
  scanNumber s = Some (lit, rest) ->
  (String.length rest < String.length s)%nat.
Proof.
  unfold scanNumber. intros H.
  repeat num_step.
  all: cbn [String.length] in *; try lia.
  match goal with
  | H : inRange 49 57 _ = true |- _ => apply nonzero_digit_isDigit in H; congruence
  end.
Qed.

Ltac p_step IHv IHe IHm :=
  match goal with
  | H : PSyntax = POk _ _ |- _ => discriminate H
  | H : PFuel = POk _ _ |- _ => discriminate H
  | H : POk _ _ = POk _ _ |- _ => inversion H; subst; clear H
  | H : parseValue _ _ _ = POk _ _ |- _ => apply IHv in H
  | H : parseElements _ _ _ = POk _ _ |- _ => apply IHe in H
  | H : parseMembers _ _ _ = POk _ _ |- _ => apply IHm in H
  | H : scanString _ _ = Some _ |- _ => apply scanString_length in H
  | H : scanNumber _ = Some _ |- _ => apply scanNumber_length in H
  | H : stripPrefix _ _ = Some _ |- _ => apply stripPrefix_length in H
  | H : skipSpace ?s = _ |- _ =>
    let L := fresh "L" in
    pose proof (skipSpace_length s) as L; rewrite H in L; clear H
  | H : context [match ?x with _ => _ end] |- _ => destruct x eqn:?
  | H : context [if ?x then _ else _] |- _ => destruct x eqn:?
  end.

Lemma parse_rest_shorter fuel :
  (forall d s v rest, parseValue fuel d s = POk v rest ->
     (String.length rest < String.length s)%nat) /\
  (forall d s vs rest, parseElements fuel d s = POk vs rest ->
     (String.length rest < String.length s)%nat) /\
  (forall d s ms rest, parseMembers fuel d s = POk ms rest ->
     (String.length rest < String.length s)%nat).
Proof.
  induction fuel as [|fuel (IHv & IHe & IHm)].
  - repeat split; intros; discriminate.
  - repeat split.
    + intros d s v rest H. cbn [parseValue parseElements parseMembers] in H.
      repeat p_step IHv IHe IHm; cbn [String.length] in *; lia.
    + intros d s vs rest H. cbn [parseValue parseElements parseMembers] in H.
      repeat p_step IHv IHe IHm; cbn [String.length] in *; lia.
    + intros d s ms rest H. cbn [parseValue parseElements parseMembers] in H.
      repeat p_step IHv IHe IHm; cbn [String.length] in *; lia.
Qed.

Ltac f_step IHv IHe IHm :=
  match goal with
  | H : PSyntax = PFuel |- _ => discriminate H
  | H : POk _ _ = PFuel |- _ => discriminate H
  | H : parseValue _ _ _ = PFuel |- _ => apply IHv in H; [contradiction|]
  | H : parseElements _ _ _ = PFuel |- _ => apply IHe in H; [contradiction|]
  | H : parseMembers _ _ _ = PFuel |- _ => apply IHm in H; [contradiction|]
  | H : parseValue _ _ _ = POk _ _ |- _ => apply parse_rest_shorter in H
  | H : scanString _ _ = Some _ |- _ => apply scanString_length in H
  | H : skipSpace ?s = _ |- _ =>
    let L := fresh "L" in
    pose proof (skipSpace_length s) as L; rewrite H in L; clear H
  | H : context [match ?x with _ => _ end] |- _ => destruct x eqn:?
  | H : context [if ?x then _ else _] |- _ => destruct x eqn:?
  end.

Lemma parse_fuel_enough fuel :
  (forall d s, (2 * String.length s < fuel)%nat -> parseValue fuel d s = PFuel -> False) /\
  (forall d s, (2 * String.length s + 1 < fuel)%nat -> parseElements fuel d s = PFuel -> False) /\
  (forall d s, (2 * String.length s + 1 < fuel)%nat -> parseMembers fuel d s = PFuel -> False).
Proof.
  induction fuel as [|fuel (IHv & IHe & IHm)].
  - repeat split; intros; lia.
  - repeat split.
    + intros d s Hf H. cbn [parseValue parseElements parseMembers] in H.
      repeat f_step IHv IHe IHm; cbn [String.length] in *; lia.
    + intros d s Hf H. cbn [parseValue parseElements parseMembers] in H.
      repeat f_step IHv IHe IHm; cbn [String.length] in *; lia.
    + intros d s Hf H. cbn [parseValue parseElements parseMembers] in H.
      repeat f_step IHv IHe IHm; cbn [String.length] in *; lia.
Qed.

(** The recursion budget of [parse] is never what stops it: a [None] of
    [parse] is a syntax error. *)
Lemma parseWith_total data :
  parseWith (parseFuel data) data <> PFuel.
Proof.
  unfold parseWith, parseFuel. intros H.
  destruct (parseValue (S (2 * String.length data)) 0 data) as [v rest| |] eqn:E.
  - destruct (isEmpty (skipSpace rest)); discriminate.
  - discriminate.
  - apply (proj1 (parse_fuel_enough _)) in E; [contradiction|lia].
Qed.

End jsonFacts.

(** ** Case folding against an ASCII name *)

Lemma code_nonneg c : 0 <= code c.
Proof. unfold code. lia. Qed.

Lemma foldLoop_S k sr tr r :
  strings.foldLoop (S k) sr tr r
  = if negb (r =? sr) && (r <? tr)
    then strings.foldLoop k sr tr (unicode.SimpleFold r) else r.
Proof. reflexivity. Qed.

Ltac plain x :=
  lazymatch x with
  | context [Z.ltb] => fail
  | context [Z.eqb] => fail
  | context [Z.leb] => fail
  | _ => idtac
  end.

Ltac zbool :=
  repeat (cbn [andb orb negb existsb];
    match goal with
    | |- context [?a <? ?b] => plain a; plain b; destruct (Z.ltb_spec a b); try lia
    | |- context [?a <=? ?b] => plain a; plain b; destruct (Z.leb_spec a b); try lia
    | |- context [?a =? ?b] => plain a; plain b; destruct (Z.eqb_spec a b); try lia
    end);
  cbn [andb orb negb existsb]; try reflexivity; try lia.

Lemma SimpleFold_upper c :
  65 <= c <= 90 -> c <> 75 -> c <> 83 ->
  unicode.SimpleFold c = c + 32 /\ unicode.SimpleFold (c + 32) = c.
Proof.
  intros. unfold unicode.SimpleFold. split; zbool.
Qed.

Lemma SimpleFold_lower c :
  97 <= c <= 122 -> c <> 107 -> c <> 115 ->
  unicode.SimpleFold c = c - 32 /\ unicode.SimpleFold (c - 32) = c.
Proof.
  intros. unfold unicode.SimpleFold. split; zbool.
Qed.

Lemma SimpleFold_other c :
  0 <= c < 128 -> ~ 65 <= c <= 90 -> ~ 97 <= c <= 122 ->
  unicode.SimpleFold c = c.
Proof.
  intros. unfold unicode.SimpleFold. zbool.
Qed.

Lemma runeFoldEq_orbit r c :
  0 <= c < 128 ->
  strings.runeFoldEq r c = existsb (Z.eqb r) (foldOrbit c).
Proof.
  intros Hc. unfold strings.runeFoldEq, utf8.RuneSelf.
  destruct (Z.eqb_spec c r) as [->|Hne].
  { unfold foldOrbit. zbool. }
  destruct (Z.ltb_spec c r) as [Hlt|Hge].
  - (* the smaller rune is c *)
    destruct (Z.ltb_spec r 128) as [Hr|Hr].
    + unfold strings.asciiFoldEq, foldOrbit. zbool.
    + unfold strings.orbitFuel.
      destruct (Z.eq_dec c 75) as [->|]; [|
      destruct (Z.eq_dec c 107) as [->|]; [|
      destruct (Z.eq_dec c 83) as [->|]; [|
      destruct (Z.eq_dec c 115) as [->|]]]].
      * change (unicode.SimpleFold 75) with 107. rewrite foldLoop_S.
        change (unicode.SimpleFold 107) with 8490. rewrite foldLoop_S.
        change (unicode.SimpleFold 8490) with 75. rewrite foldLoop_S.
        unfold foldOrbit. zbool.
      * change (unicode.SimpleFold 107) with 8490. rewrite foldLoop_S.
        change (unicode.SimpleFold 8490) with 75. rewrite foldLoop_S.
        change (unicode.SimpleFold 75) with 107. rewrite foldLoop_S.
        unfold foldOrbit. zbool.
      * change (unicode.SimpleFold 83) with 115. rewrite foldLoop_S.
        change (unicode.SimpleFold 115) with 383. rewrite foldLoop_S.
        change (unicode.SimpleFold 383) with 83. rewrite foldLoop_S.
        unfold foldOrbit. zbool.
      * change (unicode.SimpleFold 115) with 383. rewrite foldLoop_S.
        change (unicode.SimpleFold 383) with 83. rewrite foldLoop_S.
        change (unicode.SimpleFold 83) with 115. rewrite foldLoop_S.
        unfold foldOrbit. zbool.
      * destruct (Z_le_dec 65 c) as [H65|H65];
          [destruct (Z_le_dec c 90) as [H90|H90]|].
        -- destruct (SimpleFold_upper c) as [E1 E2]; [lia..|].
           rewrite E1, foldLoop_S, E2, foldLoop_S. unfold foldOrbit. zbool.
        -- destruct (Z_le_dec 97 c) as [H97|H97];
             [destruct (Z_le_dec c 122) as [H122|H122]|].
           ++ destruct (SimpleFold_lower c) as [E1 E2]; [lia..|].
              rewrite E1, foldLoop_S, E2, foldLoop_S. unfold foldOrbit. zbool.
           ++ rewrite SimpleFold_other by lia. rewrite foldLoop_S.
              unfold foldOrbit. zbool.
           ++ rewrite SimpleFold_other by lia. rewrite foldLoop_S.
              unfold foldOrbit. zbool.
        -- rewrite SimpleFold_other by lia. rewrite foldLoop_S.
           unfold foldOrbit. zbool.
  - (* the smaller rune is r; both are below 128 *)
    destruct (Z.ltb_spec c 128) as [_|]; [|lia].
    unfold strings.asciiFoldEq, foldOrbit. zbool.
Qed.

Lemma lor_high a b : 0 <= a -> 0 <= b -> 128 <= a -> 128 <= Z.lor a b.
Proof.
  intros Ha Hb H.
  assert (H0 : 0 <= Z.lor a b) by (apply Z.lor_nonneg; lia).
  assert (L : 7 <= Z.log2 (Z.lor a b)).
  { rewrite Z.log2_lor by lia.
    assert (7 <= Z.log2 a) by (apply Z.log2_le_pow2; [lia|exact H]). lia. }
  destruct (Z.eq_dec (Z.lor a b) 0) as [E|E]; [rewrite E in L; cbn in L; lia|].
  change 128 with (2 ^ 7). apply Z.log2_le_pow2; lia.
Qed.

Lemma isASCII_cons d t :
  isASCII (String d t) = true -> code d < 128 /\ isASCII t = true.
Proof.
  unfold isASCII. cbn [list_ascii_of_string forallb].
  intros H. apply andb_prop in H as [H1 H2]. apply Z.ltb_lt in H1. auto.
Qed.

Lemma hasUnicode_runes s : forall skip t,
  isASCII t = true ->
  strings.hasUnicode skip s t = runesMatch (runesFrom skip s) t.
Proof.
  induction s as [|c s IH]; intros skip t Ht.
  - destruct t; reflexivity.
  - destruct skip as [|k].
    + cbn [strings.hasUnicode runesFrom].
      destruct (utf8.DecodeRuneInString (String c s)) as [sr size].
      destruct t as [|d t]; [reflexivity|].
      apply isASCII_cons in Ht as [Hd Ht].
      unfold utf8.RuneSelf. destruct (Z.ltb_spec (code d) 128) as [_|]; [|lia].
      cbn [runesMatch].
      rewrite <- (runeFoldEq_orbit sr (code d)) by (pose proof (code_nonneg d); lia).
      destruct (strings.runeFoldEq sr (code d)); [|reflexivity].
      cbn [andb]. apply IH, Ht.
    + cbn [strings.hasUnicode runesFrom]. apply IH, Ht.
Qed.

Lemma runeFoldEq_bytes c d :
  code c < 128 -> code d < 128 ->
  strings.runeFoldEq (code c) (code d)
  = if code d =? code c then true
    else let '(sr, tr) := if code d <? code c then (code d, code c)
                          else (code c, code d) in
         strings.asciiFoldEq sr tr.
Proof.
  intros Hc Hd. unfold strings.runeFoldEq, utf8.RuneSelf.
  destruct (code d =? code c); [reflexivity|].
  destruct (code d <? code c).
  - destruct (Z.ltb_spec (code c) 128); [reflexivity|lia].
  - destruct (Z.ltb_spec (code d) 128); [reflexivity|lia].
Qed.

Lemma EqualFold_runes s : forall t,
  isASCII t = true ->
  strings.EqualFold s t = equalsIgnoringCase s t.
Proof.
  unfold equalsIgnoringCase, runes.
  induction s as [|c s IH]; intros t Ht.
  - destruct t; reflexivity.
  - destruct t as [|d t].
    + cbn [strings.EqualFold runesFrom].
      destruct (utf8.DecodeRuneInString (String c s)); reflexivity.
    + pose proof (isASCII_cons d t Ht) as [Hd Ht'].
      rewrite foldFacts.EqualFold_cons. unfold utf8.RuneSelf.
      destruct (Z.leb_spec 128 (Z.lor (code c) (code d))) as [Hhi|Hlo].
      * apply hasUnicode_runes, Ht.
      * assert (Hc : code c < 128).
        { destruct (Z_lt_dec (code c) 128) as [|Hn]; [assumption|].
          pose proof (lor_high (code c) (code d) (code_nonneg c)
                        (code_nonneg d)). lia. }
        cbn [runesFrom]. rewrite foldFacts.DecodeRune_ascii by exact Hc.
        cbn [Nat.sub runesMatch].
        rewrite <- (runeFoldEq_orbit (code c) (code d))
          by (pose proof (code_nonneg d); lia).
        rewrite (runeFoldEq_bytes c d Hc Hd), <- (IH t Ht').
        destruct (code d =? code c); [reflexivity|].
        destruct (if code d <? code c then (code d, code c) else (code c, code d))
          as [sr tr].
        destruct (strings.asciiFoldEq sr tr); reflexivity.
Qed.

Lemma lor_ascii a b : 0 <= a < 128 -> 0 <= b < 128 -> Z.lor a b < 128.
Proof.
  intros Ha Hb.
  assert (H0 : 0 <= Z.lor a b) by (apply Z.lor_nonneg; lia).
  destruct (Z.eq_dec (Z.lor a b) 0) as [->|Hn]; [lia|].
  change 128 with (2 ^ 7). apply Z.log2_lt_pow2; [lia|].
  rewrite Z.log2_lor by lia.
  assert (La : Z.log2 a < 7).
  { destruct (Z.eq_dec a 0) as [->|]; [reflexivity|].
    apply Z.log2_lt_pow2; [lia|]. change (2 ^ 7) with 128. lia. }
  assert (Lb : Z.log2 b < 7).
  { destruct (Z.eq_dec b 0) as [->|]; [reflexivity|].
    apply Z.log2_lt_pow2; [lia|]. change (2 ^ 7) with 128. lia. }
  lia.
Qed.

Lemma byte_fold_lower c d :
  (if code d =? code c then true
   else let '(sr, tr) := if code d <? code c then (code d, code c)
                         else (code c, code d) in
        strings.asciiFoldEq sr tr) = true
  <-> lowerByte c = lowerByte d.
Proof.
  unfold lowerByte, inRange, strings.asciiFoldEq.
  destruct (Z.eqb_spec (code d) (code c)) as [->|Hne]; [tauto|].
  destruct (Z.ltb_spec (code d) (code c));
    repeat match goal with
    | |- context [?a <=? ?b] => destruct (Z.leb_spec a b)
    | |- context [?a =? ?b] => destruct (Z.eqb_spec a b)
    end; cbn; split; intros; try discriminate; try reflexivity; lia.
Qed.

Lemma EqualFold_ascii s : forall t,
  isASCII s = true -> isASCII t = true ->
  (strings.EqualFold s t = true <-> lowerBytes s = lowerBytes t).
Proof.
  unfold isASCII, lowerBytes.
  induction s as [|c s IH]; intros [|d t] Hs Ht; cbn [list_ascii_of_string map].
  - split; reflexivity.
  - split; discriminate.
  - split; discriminate.
  - cbn [list_ascii_of_string forallb] in Hs, Ht.
    apply andb_prop in Hs as [Hc Hs]. apply andb_prop in Ht as [Hd Ht].
    apply Z.ltb_lt in Hc, Hd.
    rewrite foldFacts.EqualFold_cons.
    pose proof (lor_ascii (code c) (code d)
                  (conj (code_nonneg c) Hc) (conj (code_nonneg d) Hd)) as Hl.
    unfold utf8.RuneSelf.
    destruct (Z.leb_spec 128 (Z.lor (code c) (code d))) as [Hge|_]; [lia|].
    pose proof (byte_fold_lower c d) as Hb.
    specialize (IH t Hs Ht).
    destruct (code d =? code c).
    + rewrite IH. split.
      * intros E. f_equal; [apply Hb; reflexivity|exact E].
      * intros E. injection E as _ E. exact E.
    + destruct (if code d <? code c then (code d, code c) else (code c, code d))
        as [sr tr].
      destruct (strings.asciiFoldEq sr tr).
      * rewrite IH. split.
        -- intros E. f_equal; [apply Hb; reflexivity|exact E].
        -- intros E. injection E as _ E. exact E.
      * split; [discriminate|].
        intros E. injection E as E _. apply Hb in E. discriminate.
Qed.

(** ** Decimal digits *)

Lemma allDigits_string_of_uint d :
  strconv.allDigits (NilEmpty.string_of_uint d) = true.
Proof. induction d; cbn [NilEmpty.string_of_uint strconv.allDigits]; try rewrite IHd; reflexivity. Qed.

Lemma digitsValue_acc d acc :
  strconv.digitsValue (Npos acc) (NilEmpty.string_of_uint d)
  = Npos (Pos.of_uint_acc d acc).
Proof.
  revert acc.
  induction d; intros acc;
    cbn [NilEmpty.string_of_uint strconv.digitsValue Pos.of_uint_acc];
    [reflexivity|..];
    match goal with
    | |- strconv.digitsValue (10 * N.pos acc + ?k)%N _
         = N.pos (Pos.of_uint_acc d ?p) =>
      let k' := eval vm_compute in k in
      change k with k';
      replace (10 * N.pos acc + k')%N with (N.pos p) by lia
    end;
    apply IHd.
Qed.

Lemma digitsValue_of_uint d :
  strconv.digitsValue 0 (NilEmpty.string_of_uint d) = N.of_uint d.
Proof.
  unfold N.of_uint.
  induction d; cbn [NilEmpty.string_of_uint strconv.digitsValue Pos.of_uint];
    [reflexivity|..];
    match goal with
    | |- strconv.digitsValue ?a _ = _ =>
      let a' := eval vm_compute in a in change a with a'
    end;
    [exact IHd|apply digitsValue_acc..].
Qed.

(** ** What the decoder accepts *)

Lemma digit_char c d :
  inRange 48 57 c = true -> exists d', uint_of_char c (Some d) = Some d'.
Proof.
  destruct c as [[|] [|] [|] [|] [|] [|] [|] [|]]; intros H;
    try discriminate H; eexists; reflexivity.
Qed.

Lemma allDigits_uint s :
  strconv.allDigits s = true -> exists d, NilEmpty.uint_of_string s = Some d.
Proof.
  induction s as [|c s IH]; cbn [strconv.allDigits NilEmpty.uint_of_string].
  - eauto.
  - intros H. apply andb_prop in H as [Hc Hs].
    destruct (IH Hs) as [d ->]. apply digit_char, Hc.
Qed.

Lemma ParseUint32_spec lit :
  strconv.ParseUint32 lit =
  match NilEmpty.uint_of_string lit with
  | Some Decimal.Nil => None
  | Some d => if (N.of_uint d <? 4294967296)%N then Some (N.of_uint d) else None
  | None => None
  end.
Proof.
  destruct (NilEmpty.uint_of_string lit) as [d|] eqn:E.
  - apply NilEmpty.sus in E. subst lit.
    unfold strconv.ParseUint32.
    rewrite allDigits_string_of_uint, digitsValue_of_uint.
    destruct d; reflexivity.
  - unfold strconv.ParseUint32.
    destruct lit as [|c s]; [discriminate E|].
    destruct (strconv.allDigits (String c s)) eqn:A; [|reflexivity].
    apply allDigits_uint in A as [d A]. congruence.
Qed.

Lemma succeeds_storeUint32 v cur :
  succeeds (json.storeUint32 v cur) = fitsUint32 v.
Proof.
  destruct v; try reflexivity.
  cbn [json.storeUint32 fitsUint32]. rewrite ParseUint32_spec.
  destruct (NilEmpty.uint_of_string lit) as [d|]; [|reflexivity].
  destruct d; try reflexivity;
    match goal with |- context [(?a <? ?b)%N] => destruct (a <? b)%N end;
    reflexivity.
Qed.

Lemma succeeds_storeUint32Ptr v cur :
  succeeds (json.storeUint32Ptr v cur) = fitsUint32 v.
Proof.
  destruct v; try reflexivity.
  cbn [json.storeUint32Ptr]. unfold json.bind.
  rewrite <- (succeeds_storeUint32 (json.Number lit) (default 0%N cur)).
  destruct (json.storeUint32 (json.Number lit) (default 0%N cur)); reflexivity.
Qed.

Lemma succeeds_storeString v cur :
  succeeds (json.storeString v cur) = fitsString v.
Proof. destruct v; reflexivity. Qed.

Lemma succeeds_storeMembers {T F : Type} (fields folded : list (string * F))
    (set : F -> json.value -> T -> json.res T) (fitsField : F -> json.value -> bool) :
  (forall key, json.lookupField fields key = selectFolded folded key) ->
  (forall f x cur, succeeds (set f x cur) = fitsField f x) ->
  forall ms cur,
    succeeds (json.storeMembers fields set ms cur)
    = forallb (fun m => match selectFolded folded (fst m) with
                        | Some f => fitsField f (snd m)
                        | None => true
                        end) ms.
Proof.
  intros Hl Hs. induction ms as [|[key x] ms IH]; intros cur; [reflexivity|].
  cbn [json.storeMembers forallb fst snd]. unfold json.bind.
  rewrite Hl. destruct (selectFolded folded key) as [f|].
  - rewrite <- (Hs f x cur).
    destruct (set f x cur) as [e|c1]; [reflexivity|]. cbn [succeeds andb]. apply IH.
  - cbn [andb]. apply IH.
Qed.

Lemma succeeds_storeStruct {T F : Type} (fields folded : list (string * F))
    (set : F -> json.value -> T -> json.res T) (fitsField : F -> json.value -> bool) :
  (forall key, json.lookupField fields key = selectFolded folded key) ->
  (forall f x cur, succeeds (set f x cur) = fitsField f x) ->
  forall v cur,
    succeeds (json.storeStruct fields set v cur) = fitsStruct folded fitsField v.
Proof.
  intros Hl Hs v cur. destruct v; try reflexivity.
  cbn [json.storeStruct fitsStruct]. apply succeeds_storeMembers; assumption.
Qed.

Ltac exact_name_cases :=
  repeat match goal with
  | |- context [String.eqb ?name ?key] =>
    is_var key;
    let E := fresh "E" in
    destruct (String.eqb name key) eqn:E;
    [apply String.eqb_eq in E; subst key; reflexivity|]
  end.

Ltac folded_name_cases key :=
  unfold json.lookupField, selectFolded;
  cbn [List.find fst snd];
  exact_name_cases;
  repeat match goal with
  | |- context [json.foldName 0 (String ?c ?n)] =>
    let n' := eval vm_compute in (json.foldName 0 (String c n)) in
    change (json.foldName 0 (String c n)) with n'
  end;
  repeat match goal with
  | |- context [String.eqb ?n (json.foldName 0 key)] =>
    destruct (String.eqb n (json.foldName 0 key)); [reflexivity|]
  end;
  reflexivity.

Lemma lookup_vrFields key :
  json.lookupField vrFields key = selectFolded vrFolded key.
Proof. unfold vrFields, vrFolded. folded_name_cases key. Qed.

Lemma lookup_instanceFields key :
  json.lookupField instanceFields key = selectFolded instanceFolded key.
Proof. unfold instanceFields, instanceFolded. folded_name_cases key. Qed.

Lemma lookup_statsFields key :
  json.lookupField statsFields key = selectFolded statsFolded key.
Proof. unfold statsFields, statsFolded. folded_name_cases key. Qed.

Ltac succeeds_bind :=
  unfold json.bind;
  match goal with
  | |- context [match ?x with inl _ => _ | inr _ => _ end] => destruct x
  end; reflexivity.

Lemma succeeds_setStats f x s : succeeds (setStats f x s) = fitsUint32 x.
Proof.
  destruct f; cbn [setStats];
    match goal with
    | |- context [json.storeUint32Ptr ?v ?c] =>
      rewrite <- (succeeds_storeUint32Ptr v c)
    end; succeeds_bind.
Qed.

Lemma succeeds_storeStats v s : succeeds (storeStats v s) = fitsStats v.
Proof.
  apply succeeds_storeStruct; [apply lookup_statsFields|apply succeeds_setStats].
Qed.

Lemma succeeds_setInstance f x i :
  succeeds (setInstance f x i)
  = match f with
    | fSubinterface | fStatus => fitsString
    | fStatistics => fitsStats
    end x.
Proof.
  destruct f; cbn [setInstance].
  - rewrite <- (succeeds_storeString x (Subinterface i)). succeeds_bind.
  - rewrite <- (succeeds_storeString x (Status i)). succeeds_bind.
  - rewrite <- (succeeds_storeStats x (Statistics i)). succeeds_bind.
Qed.

Lemma succeeds_storeInstance v i : succeeds (storeInstance v i) = fitsInstance v.
Proof.
  apply succeeds_storeStruct; [apply lookup_instanceFields|apply succeeds_setInstance].
Qed.

Lemma succeeds_setVr f x r :
  succeeds (setVr f x r)
  = match f with
    | fVrid => fitsUint32
    | fInterface => fitsString
    | fV6Info | fV4Info => fitsInstance
    end x.
Proof.
  destruct f; cbn [setVr].
  - rewrite <- (succeeds_storeUint32 x (Vrid r)). succeeds_bind.
  - rewrite <- (succeeds_storeString x (Interface r)). succeeds_bind.
  - rewrite <- (succeeds_storeInstance x (V6Info r)). succeeds_bind.
  - rewrite <- (succeeds_storeInstance x (V4Info r)). succeeds_bind.
Qed.

Lemma succeeds_storeVr v r : succeeds (storeVr v r) = fitsVr v.
Proof.
  apply succeeds_storeStruct; [apply lookup_vrFields|apply succeeds_setVr].
Qed.

Lemma succeeds_storeElements vs :
  succeeds (json.storeElements zeroVr storeVr vs) = forallb fitsVr vs.
Proof.
  induction vs as [|v vs IH]; [reflexivity|].
  cbn [json.storeElements forallb]. unfold json.bind.
  rewrite <- (succeeds_storeVr v zeroVr), <- IH.
  destruct (storeVr v zeroVr); [reflexivity|].
  destruct (json.storeElements zeroVr storeVr vs); reflexivity.
Qed.

Lemma succeeds_Unmarshal data :
  succeeds (Unmarshal data)
  = match json.parse data with
    | Some v => fitsTable v
    | None => false
    end.
Proof.
  unfold Unmarshal. destruct (json.parse data) as [v|]; [|reflexivity].
  destruct v; try reflexivity. apply succeeds_storeElements.
Qed.

(** *** The errors are type errors *)

Lemma isTypeError_bind {A B : Type} (x : json.res A) (k : A -> json.res B) :
  isTypeError x -> (forall a, isTypeError (k a)) -> isTypeError (json.bind x k).
Proof.
  intros Hx Hk. destruct x as [e|a]; [exact Hx|apply Hk].
Qed.

Lemma isTypeError_storeUint32 v cur : isTypeError (json.storeUint32 v cur).
Proof.
  destruct v; try exact I. cbn [json.storeUint32].
  destruct (strconv.ParseUint32 lit); exact I.
Qed.

Lemma isTypeError_storeUint32Ptr v cur : isTypeError (json.storeUint32Ptr v cur).
Proof.
  destruct v; try exact I;
    (apply isTypeError_bind; [apply isTypeError_storeUint32|intros; exact I]).
Qed.

Lemma isTypeError_storeString v cur : isTypeError (json.storeString v cur).
Proof. destruct v; exact I. Qed.

Lemma isTypeError_storeStruct {T F : Type} (fields : list (string * F))
    (set : F -> json.value -> T -> json.res T) :
  (forall f x cur, isTypeError (set f x cur)) ->
  forall v cur, isTypeError (json.storeStruct fields set v cur).
Proof.
  intros Hs v cur. destruct v; try exact I.
  cbn [json.storeStruct]. revert cur.
  induction members as [|[key x] ms IH]; intros cur; [exact I|].
  cbn [json.storeMembers]. apply isTypeError_bind; [|intros; apply IH].
  destruct (json.lookupField fields key); [apply Hs|exact I].
Qed.

Lemma isTypeError_storeStats v s : isTypeError (storeStats v s).
Proof.
  apply isTypeError_storeStruct. intros f x cur.
  destruct f; (apply isTypeError_bind;
    [apply isTypeError_storeUint32Ptr|intros; exact I]).
Qed.

Lemma isTypeError_storeInstance v i : isTypeError (storeInstance v i).
Proof.
  apply isTypeError_storeStruct. intros f x cur.
  destruct f; (apply isTypeError_bind; [|intros; exact I]);
    first [apply isTypeError_storeString|apply isTypeError_storeStats].
Qed.

Lemma isTypeError_storeVr v r : isTypeError (storeVr v r).
Proof.
  apply isTypeError_storeStruct. intros f x cur.
  destruct f; (apply isTypeError_bind; [|intros; exact I]);
    first [apply isTypeError_storeUint32|apply isTypeError_storeString
          |apply isTypeError_storeInstance].
Qed.

Lemma isTypeError_storeSlice v : isTypeError (json.storeSlice zeroVr storeVr v).
Proof.
  destruct v; try exact I. cbn [json.storeSlice].
  induction elems as [|v vs IH]; [exact I|].
  cbn [json.storeElements].
  apply isTypeError_bind; [apply isTypeError_storeVr|intros r].
  apply isTypeError_bind; [exact IH|intros; exact I].
Qed.

Lemma Unmarshal_type_error data v :
  json.parse data = Some v -> fitsTable v = false ->
  exists what, Unmarshal data = inl (json.UnmarshalTypeError what).
Proof.
  intros Hp Hf. pose proof (succeeds_Unmarshal data) as Hs.
  rewrite Hp, Hf in Hs. unfold Unmarshal in *. rewrite Hp in *.
  pose proof (isTypeError_storeSlice v) as Ht.
  destruct (json.storeSlice zeroVr storeVr v) as [[|what]|rs];
    [destruct Ht|eauto|discriminate Hs].
Qed.

Lemma Unmarshal_fits data v :
  json.parse data = Some v -> fitsTable v = true ->
  exists rs, Unmarshal data = inr rs.
Proof.
  intros Hp Hf. pose proof (succeeds_Unmarshal data) as Hs.
  rewrite Hp, Hf in Hs.
  destruct (Unmarshal data) as [e|rs]; [discriminate Hs|eauto].
Qed.

Lemma no_decode_error_on_success data desc ch rs err ch' :
  Unmarshal data = inr rs ->
  processVRRPInfo data desc ch <> Done (Some err) ch'.
Proof.
  intros H. unfold processVRRPInfo. rewrite H. unfold seq.
  match goal with |- context [match ?c with Done _ _ => _ | Panic => _ end] =>
    destruct c end; unfold ret; congruence.
Qed.

(** *** Fields without a member *)

Lemma storeMembers_keeps {T F : Type} (R : T -> T -> Prop)
    (fields : list (string * F)) (set : F -> json.value -> T -> json.res T) (f : F) :
  (forall c, R c c) ->
  (forall a b c, R a b -> R b c -> R a c) ->
  (forall g x cur cur', g <> f -> set g x cur = inr cur' -> R cur cur') ->
  forall ms cur cur',
    (forall m, In m ms -> json.lookupField fields (fst m) <> Some f) ->
    json.storeMembers fields set ms cur = inr cur' -> R cur cur'.
Proof.
  intros Hrefl Htrans Hset. induction ms as [|[key x] ms IH]; intros cur cur' Hn H.
  - injection H as <-. apply Hrefl.
  - cbn [json.storeMembers] in H. unfold json.bind in H.
    assert (Hk : json.lookupField fields key <> Some f)
      by (apply (Hn (key, x)); left; reflexivity).
    assert (Hn' : forall m, In m ms -> json.lookupField fields (fst m) <> Some f)
      by (intros m Hm; apply Hn; right; exact Hm).
    destruct (json.lookupField fields key) as [g|].
    + destruct (set g x cur) as [e|c1] eqn:E; [discriminate|].
      apply (Htrans cur c1 cur'); [|apply (IH c1 cur' Hn' H)].
      apply (Hset g x cur c1); [congruence|exact E].
    + apply (IH cur cur' Hn' H).
Qed.

Ltac keeps_case H :=
  cbn in H; unfold json.bind in H;
  match type of H with
  | context [match ?x with inl _ => _ | inr _ => _ end] =>
    destruct x; [discriminate H|]
  end;
  injection H as <-; reflexivity.

Lemma setVr_keeps f g x r r' :
  g <> f -> setVr g x r = inr r' -> sameVrField f r r'.
Proof. intros Hne H. destruct g, f; try congruence; keeps_case H. Qed.

Lemma setInstance_keeps f g x i i' :
  g <> f -> setInstance g x i = inr i' -> sameInstanceField f i i'.
Proof. intros Hne H. destruct g, f; try congruence; keeps_case H. Qed.

Lemma setStats_keeps f g x s s' :
  g <> f -> setStats g x s = inr s' -> sameStatsField f s s'.
Proof.
  intros Hne H. unfold sameStatsField. destruct g, f; try congruence; keeps_case H.
Qed.

Lemma storeVr_keeps f ms r r' :
  noMemberFor vrFolded f ms ->
  storeVr (json.Object ms) r = inr r' -> sameVrField f r r'.
Proof.
  intros Hn. apply (storeMembers_keeps (sameVrField f) vrFields setVr f).
  - intros c. destruct f; reflexivity.
  - intros a b c. destruct f; cbn; congruence.
  - intros g x cur cur'. apply setVr_keeps.
  - intros m Hm. rewrite lookup_vrFields. apply Hn, Hm.
Qed.

Lemma storeInstance_keeps f ms i i' :
  noMemberFor instanceFolded f ms ->
  storeInstance (json.Object ms) i = inr i' -> sameInstanceField f i i'.
Proof.
  intros Hn. apply (storeMembers_keeps (sameInstanceField f) instanceFields setInstance f).
  - intros c. destruct f; reflexivity.
  - intros a b c. destruct f; cbn; congruence.
  - intros g x cur cur'. apply setInstance_keeps.
  - intros m Hm. rewrite lookup_instanceFields. apply Hn, Hm.
Qed.

Lemma storeStats_keeps f ms s s' :
  noMemberFor statsFolded f ms ->
  storeStats (json.Object ms) s = inr s' -> sameStatsField f s s'.
Proof.
  intros Hn. apply (storeMembers_keeps (sameStatsField f) statsFields setStats f).
  - intros c. reflexivity.
  - intros a b c. unfold sameStatsField. congruence.
  - intros g x cur cur'. apply setStats_keeps.
  - intros m Hm. rewrite lookup_statsFields. apply Hn, Hm.
Qed.

Lemma storeElements_each vs : forall rs,
  json.storeElements zeroVr storeVr vs = inr rs ->
  Forall2 (fun v r => storeVr v zeroVr = inr r) vs rs.
Proof.
  induction vs as [|v vs IH]; intros rs H; cbn [json.storeElements] in H.
  - injection H as <-. constructor.
  - unfold json.bind in H.
    destruct (storeVr v zeroVr) as [e|r] eqn:E; [discriminate|].
    destruct (json.storeElements zeroVr storeVr vs) as [e|rs']; [discriminate|].
    injection H as <-. constructor; [exact E|apply IH; reflexivity].
Qed.

(** ** The state block *)

Lemma emitted_processInstance proto vrid iface inst :
  emitted (processInstance proto vrid iface inst getVRRPDesc)
  = instanceMetrics proto vrid iface inst.
Proof. unfold emitted. rewrite processInstance_run. reflexivity. Qed.

Lemma filter_state_counterBlock proto vrid iface inst :
  List.filter (named "frr_vrrp_state") (counterBlock proto vrid iface inst) = [].
Proof.
  unfold counterBlock, allStatsFields, counterObservations. simpl flat_map.
  destruct inst as [sub st [a b c d e]]. simpl statsValue.
  destruct a, b, c, d, e; reflexivity.
Qed.

Lemma filter_state_stateBlock proto vrid iface inst :
  List.filter (named "frr_vrrp_state") (stateBlock proto vrid iface inst)
  = stateBlock proto vrid iface inst.
Proof. reflexivity. Qed.

Lemma filter_state_instanceMetrics proto vrid iface inst :
  List.filter (named "frr_vrrp_state") (instanceMetrics proto vrid iface inst)
  = stateBlock proto vrid iface inst.
Proof.
  unfold instanceMetrics.
  rewrite List.filter_app, filter_state_counterBlock, filter_state_stateBlock.
  apply app_nil_r.
Qed.

Lemma stateValues_processInstance proto vrid iface inst :
  stateValues (emitted (processInstance proto vrid iface inst getVRRPDesc))
  = map (fun state => b2z (strings.EqualFold (Status inst) state)) vrrpStates.
Proof.
  unfold stateValues.
  rewrite emitted_processInstance, filter_state_instanceMetrics. reflexivity.
Qed.

(** C1 (as amended).  For every family sub-record the extractor emits
    exactly three state observations, one per state in the order
    Initialize, Master, Backup, each with value 0 or 1.  Their sum is 1
    when the status of the sub-record equals one of the three state names
    under case folding, and 0 otherwise: the block is one-hot only for a
    recognised status. *)
Theorem state_block_sum proto vrid iface inst :
  let vals := stateValues (emitted (processInstance proto vrid iface inst getVRRPDesc)) in
  vals = map (fun state => b2z (strings.EqualFold (Status inst) state)) vrrpStates /\
  length vals = 3%nat /\
  Forall (fun v => v = 0 \/ v = 1) vals /\
  sumZ vals = b2z (existsb (strings.EqualFold (Status inst)) vrrpStates).
Proof.
  cbv zeta. rewrite stateValues_processInstance.
  destruct (foldFacts.states_exclusive (Status inst)) as (H1 & H2 & H3).
  unfold vrrpStates, vrrpStatusInitialize, vrrpStatusMaster, vrrpStatusBackup.
  simpl map. simpl existsb. unfold sumZ. simpl fold_right.
  destruct (strings.EqualFold (Status inst) "Initialize");
  destruct (strings.EqualFold (Status inst) "Master");
  destruct (strings.EqualFold (Status inst) "Backup");
  try discriminate; simpl;
  (split; [reflexivity|split; [reflexivity|split; [|reflexivity]]]);
  repeat (constructor; [lia|]); constructor.
Qed.

(** C1, the claim as stated, fails: the spec's own end-to-end example
    decodes, and the three state observations of its empty v6 sub-record
    are all 0, so the block sums to 0 and none of them is 1. *)
Lemma one_hot_fails_on_empty_family :
  Unmarshal exampleInput = inr [exampleVr] /\
  stateValues (emitted (processInstance "v6" (Vrid exampleVr) (Interface exampleVr)
                                        (V6Info exampleVr) getVRRPDesc))
  = [0; 0; 0] /\
  sumZ (stateValues (emitted (processInstance "v6" (Vrid exampleVr) (Interface exampleVr)
                                              (V6Info exampleVr) getVRRPDesc)))
  <> 1.
Proof.
  split; [vm_compute; reflexivity|].
  split; [vm_compute; reflexivity|].
  vm_compute. discriminate.
Qed.

(** C9.  The three state names are pairwise distinct under case folding, a
    status matches at most one of them, and so at most one of the three
    state observations of a family sub-record is 1: the block sums to 0
    or 1. *)
Theorem state_at_most_one proto vrid iface inst :
  strings.EqualFold vrrpStatusInitialize vrrpStatusMaster = false /\
  strings.EqualFold vrrpStatusInitialize vrrpStatusBackup = false /\
  strings.EqualFold vrrpStatusMaster vrrpStatusBackup = false /\
  (forall s1 s2, In s1 vrrpStates -> In s2 vrrpStates ->
     strings.EqualFold (Status inst) s1 = true ->
     strings.EqualFold (Status inst) s2 = true -> s1 = s2) /\
  let vals := stateValues (emitted (processInstance proto vrid iface inst getVRRPDesc)) in
  (length (List.filter (Z.eqb 1) vals) <= 1)%nat /\
  (sumZ vals = 0 \/ sumZ vals = 1).
Proof.
  split; [reflexivity|]. split; [reflexivity|]. split; [reflexivity|].
  destruct (foldFacts.states_exclusive (Status inst)) as (H1 & H2 & H3).
  split.
  - intros s1 s2 I1 I2 E1 E2.
    unfold vrrpStates, vrrpStatusInitialize, vrrpStatusMaster, vrrpStatusBackup in I1, I2.
    simpl in I1, I2.
    destruct I1 as [<-|[<-|[<-|[]]]]; destruct I2 as [<-|[<-|[<-|[]]]];
      try reflexivity; rewrite E1, E2 in *; discriminate.
  - cbv zeta. rewrite stateValues_processInstance.
    unfold vrrpStates, vrrpStatusInitialize, vrrpStatusMaster, vrrpStatusBackup.
    simpl map. unfold sumZ.
    destruct (strings.EqualFold (Status inst) "Initialize");
    destruct (strings.EqualFold (Status inst) "Master");
    destruct (strings.EqualFold (Status inst) "Backup");
    try discriminate; simpl; split; auto; lia.
Qed.

(** ** State observations of a whole table *)

Lemma filter_state_recordMetrics r :
  List.filter (named "frr_vrrp_state") (recordMetrics r)
  = stateBlock "v4" (Vrid r) (Interface r) (V4Info r) ++
    stateBlock "v6" (Vrid r) (Interface r) (V6Info r).
Proof.
  unfold recordMetrics.
  rewrite List.filter_app, !filter_state_instanceMetrics. reflexivity.
Qed.

Lemma filter_flat_map {A B} (p : B -> bool) (f : A -> list B) l :
  List.filter p (flat_map f l) = flat_map (fun x => List.filter p (f x)) l.
Proof.
  induction l as [|x l IH]; simpl; [reflexivity|].
  rewrite List.filter_app, IH. reflexivity.
Qed.

Lemma length_flat_map_const {A B} (f : A -> list B) n l :
  (forall x, length (f x) = n) -> length (flat_map f l) = (n * length l)%nat.
Proof.
  intros H. induction l as [|x l IH]; simpl; [lia|].
  rewrite length_app, H, IH. lia.
Qed.

(** C2.  When the input decodes to the records [rs], [processVRRPInfo]
    returns no error and the state observations it sends are, record by
    record, those of the v4 sub-record followed by those of the v6
    sub-record: for each of Initialize, Master, Backup in this order a
    gauge of [frr_vrrp_state] with labels proto, decimal vrid, interface,
    subinterface, state name, and value 1 if the status equals the state
    name when case is ignored, else 0.  That is six state observations per
    record, whatever the sub-records hold.  Equality when case is ignored
    is [equalsIgnoringCase], which does not mention [strings.EqualFold];
    for a status of ASCII bytes it is equality of the two strings after
    A to Z are put in lower case. *)
Theorem state_observations_of_table data rs ch :
  Unmarshal data = inr rs ->
  (exists ms,
    processVRRPInfo data getVRRPDesc ch = Done None (ch ++ ms) /\
    List.filter (named "frr_vrrp_state") ms =
      flat_map (fun r =>
        flat_map (fun '(proto, inst) =>
          map (fun state =>
                 mkMetric vrrpStateDesc GaugeValue
                   (if equalsIgnoringCase (Status inst) state then 1 else 0)
                   [proto; strconv.FormatUint (Vrid r); Interface r;
                    Subinterface inst; state])
              ["Initialize"; "Master"; "Backup"])
          [("v4", V4Info r); ("v6", V6Info r)]) rs /\
    length (List.filter (named "frr_vrrp_state") ms) = (6 * length rs)%nat) /\
  (forall status state,
     isASCII status = true -> In state vrrpStates ->
     (equalsIgnoringCase status state = true
      <-> lowerBytes status = lowerBytes state)).
Proof.
  intros H. split.
  - exists (flat_map recordMetrics rs).
    split; [apply processVRRPInfo_run, H|].
    rewrite filter_flat_map.
    assert (M : forall status state, In state ["Initialize"; "Master"; "Backup"] ->
              strings.EqualFold status state = equalsIgnoringCase status state).
    { intros status state Hin. apply EqualFold_runes.
      cbn in Hin. destruct Hin as [<-|[<-|[<-|[]]]]; reflexivity. }
    assert (E : forall r,
      List.filter (named "frr_vrrp_state") (recordMetrics r) =
      flat_map (fun '(proto, inst) =>
            map (fun state =>
                   mkMetric vrrpStateDesc GaugeValue
                     (if equalsIgnoringCase (Status inst) state then 1 else 0)
                     [proto; strconv.FormatUint (Vrid r); Interface r;
                      Subinterface inst; state])
                ["Initialize"; "Master"; "Backup"])
            [("v4", V4Info r); ("v6", V6Info r)]).
    { intros r. rewrite filter_state_recordMetrics.
      unfold stateBlock, stateObservation, b2z, baseLabels.
      cbn [flat_map]. rewrite app_nil_r.
      f_equal; apply map_ext_in; intros state Hin; rewrite (M _ _ Hin);
        reflexivity. }
    split.
    + apply flat_map_ext. exact E.
    + apply length_flat_map_const. intros r. rewrite E. reflexivity.
  - intros status state Hs Hin.
    assert (Ht : isASCII state = true).
    { unfold vrrpStates in Hin. cbn in Hin.
      destruct Hin as [<-|[<-|[<-|[]]]]; reflexivity. }
    rewrite <- (EqualFold_runes status state Ht).
    apply EqualFold_ascii; assumption.
Qed.

Lemma state_observations_of_example :
  ((exists ms,
    processVRRPInfo exampleInput getVRRPDesc [] = Done None ([] ++ ms) /\
    List.filter (named "frr_vrrp_state") ms =
      flat_map (fun r =>
        flat_map (fun '(proto, inst) =>
          map (fun state =>
                 mkMetric vrrpStateDesc GaugeValue
                   (if equalsIgnoringCase (Status inst) state then 1 else 0)
                   [proto; strconv.FormatUint (Vrid r); Interface r;
                    Subinterface inst; state])
              ["Initialize"; "Master"; "Backup"])
          [("v4", V4Info r); ("v6", V6Info r)]) [exampleVr] /\
    length (List.filter (named "frr_vrrp_state") ms) = (6 * length [exampleVr])%nat) /\
  (forall status state,
     isASCII status = true -> In state vrrpStates ->
     (equalsIgnoringCase status state = true
      <-> lowerBytes status = lowerBytes state))) /\
  stateValues (emitted (processVRRPInfo exampleInput getVRRPDesc))
  = [0; 1; 0; 0; 0; 0] /\
  stateValues (emitted (processVRRPInfo
     (dq "[{'vrid':2,'interface':'eth1','v4':{'status':'BACKUP'},'v6':{'status':'initialize'}}]")
     getVRRPDesc))
  = [0; 0; 1; 1; 0; 0].
Proof.
  split; [|split; vm_compute; reflexivity].
  apply (state_observations_of_table exampleInput [exampleVr] []).
  vm_compute. reflexivity.
Defined.

(** ** Optional counters *)

Lemma filter_counter_stateBlock f proto vrid iface inst :
  List.filter (named (counterName f)) (stateBlock proto vrid iface inst) = [].
Proof. destruct f; reflexivity. Qed.

Lemma filter_counter_counterBlock f proto vrid iface inst :
  List.filter (named (counterName f)) (counterBlock proto vrid iface inst)
  = counterObservations proto vrid iface inst f.
Proof.
  unfold counterBlock, allStatsFields, counterObservations. simpl flat_map.
  destruct inst as [sub st [a b c d e]]. simpl statsValue.
  destruct f, a, b, c, d, e; reflexivity.
Qed.

(** C3.  For each of the five statistics fields, the observations of that
    field's counter metric sent by [processInstance] are: exactly one, with
    the base labels and the field's value, when the pointer is not [nil]
    (also when the value is 0); none when it is [nil].  The answer for a
    field depends on that field alone.  Taken together these are all the
    counter observations of the sub-record. *)
Theorem counter_iff_present proto vrid iface inst f :
  List.filter (named (counterName f))
              (emitted (processInstance proto vrid iface inst getVRRPDesc))
  = match statsValue f (Statistics inst) with
    | Some x => [mkMetric (counterDesc f) CounterValue (Z.of_N x)
                   [proto; strconv.FormatUint vrid; iface; Subinterface inst]]
    | None => []
    end
  /\
  List.filter isCounter (emitted (processInstance proto vrid iface inst getVRRPDesc))
  = flat_map (fun g =>
      List.filter (named (counterName g))
                  (emitted (processInstance proto vrid iface inst getVRRPDesc)))
      [fAdverTx; fAdverRx; fGarpTx; fNeighborAdverTx; fTransitions].
Proof.
  rewrite emitted_processInstance. unfold instanceMetrics.
  split.
  - rewrite List.filter_app, filter_counter_stateBlock, filter_counter_counterBlock.
    reflexivity.
  - transitivity (counterBlock proto vrid iface inst).
    + rewrite List.filter_app.
      unfold counterBlock, allStatsFields, counterObservations. simpl flat_map.
      destruct inst as [sub st [a b c d e]]. simpl statsValue.
      destruct a, b, c, d, e; reflexivity.
    + unfold counterBlock at 1. unfold allStatsFields. apply flat_map_ext. intros g.
      rewrite List.filter_app, filter_counter_stateBlock, filter_counter_counterBlock.
      reflexivity.
Qed.

(** ** Decoding errors *)

(** C4.  When decoding the buffer fails, [processVRRPInfo] returns the
    error of the decoder and the channel is as it was: nothing is sent. *)
Theorem decode_failure_emits_nothing data desc ch err :
  Unmarshal data = inl err ->
  processVRRPInfo data desc ch = Done (Some err) ch.
Proof.
  intros H. unfold processVRRPInfo. rewrite H. reflexivity.
Qed.

Lemma decode_failure_on_truncated_input :
  processVRRPInfo (dq "[{'vrid':1,'interface':'eth0','v4':{'status':'Mas")
                  getVRRPDesc []
  = Done (Some json.SyntaxError) [].
Proof.
  apply (decode_failure_emits_nothing
           (dq "[{'vrid':1,'interface':'eth0','v4':{'status':'Mas")
           getVRRPDesc [] json.SyntaxError).
  vm_compute. reflexivity.
Defined.

(** C10.  The buffers [null] and [[]] decode to a slice without elements:
    [processVRRPInfo] returns no error and sends nothing. *)
Theorem null_and_empty_array_succeed desc ch :
  processVRRPInfo "null" desc ch = Done None ch /\
  processVRRPInfo "[]" desc ch = Done None ch.
Proof.
  assert (Hn : Unmarshal "null" = inr []) by (vm_compute; reflexivity).
  assert (He : Unmarshal "[]" = inr []) by (vm_compute; reflexivity).
  unfold processVRRPInfo. rewrite Hn, He. split; reflexivity.
Qed.

Lemma storeMembers_skips_unknown {T F : Type} (fields : list (string * F))
    (set : F -> json.value -> T -> json.res T) ms cur :
  json.storeMembers fields set ms cur
  = json.storeMembers fields set (List.filter (knownKey fields) ms) cur.
Proof.
  revert cur. induction ms as [|[key x] ms IH]; intros cur; [reflexivity|].
  cbn [json.storeMembers List.filter]. unfold knownKey at 1. cbn [fst].
  destruct (json.lookupField fields key) as [f|] eqn:E.
  - cbn [json.storeMembers]. rewrite E.
    destruct (set f x cur) as [e|cur']; cbn; [reflexivity|apply IH].
  - cbn. apply IH.
Qed.

(** C5 (as amended).  [processVRRPInfo] returns the decoder's error, and
    sends nothing, when the bytes are not valid JSON and when some JSON
    value, at whatever depth, has a type the Go value it is stored into
    cannot hold: the table must be [null] or an array, a record and a
    sub-record and the statistics [null] or an object, a string field
    [null] or a string, a number field [null] or a run of decimal digits
    below [2^32].  When every value fits, no decoder error is returned.
    The set of members of an object is not checked: members whose key
    selects no field are skipped whatever their value, and a field that no
    member selects keeps the value it had, which is the zero value in the
    record of an array element. *)
Theorem decode_error_detection data desc ch :
  (json.parse data = None ->
     processVRRPInfo data desc ch = Done (Some json.SyntaxError) ch) /\
  (forall v, json.parse data = Some v -> isArrayOrNull v = false ->
     exists what,
       processVRRPInfo data desc ch = Done (Some (json.UnmarshalTypeError what)) ch) /\
  (forall v, json.parse data = Some v -> fitsTable v = false ->
     exists what,
       processVRRPInfo data desc ch = Done (Some (json.UnmarshalTypeError what)) ch) /\
  (forall v, json.parse data = Some v -> fitsTable v = true ->
     (exists rs, Unmarshal data = inr rs) /\
     (forall err ch', processVRRPInfo data desc ch <> Done (Some err) ch')) /\
  (forall members r,
     storeVr (json.Object members) r
     = storeVr (json.Object (List.filter (knownKey vrFields) members)) r) /\
  (forall members i,
     storeInstance (json.Object members) i
     = storeInstance (json.Object (List.filter (knownKey instanceFields) members)) i) /\
  (forall members s,
     storeStats (json.Object members) s
     = storeStats (json.Object (List.filter (knownKey statsFields) members)) s) /\
  (forall f members r r',
     noMemberFor vrFolded f members ->
     storeVr (json.Object members) r = inr r' -> sameVrField f r r') /\
  (forall f members i i',
     noMemberFor instanceFolded f members ->
     storeInstance (json.Object members) i = inr i' -> sameInstanceField f i i') /\
  (forall f members s s',
     noMemberFor statsFolded f members ->
     storeStats (json.Object members) s = inr s' -> sameStatsField f s s') /\
  (forall vs rs,
     json.parse data = Some (json.Array vs) -> Unmarshal data = inr rs ->
     Forall2 (fun v r => storeVr v zeroVr = inr r) vs rs) /\
  (forall r, storeVr (json.Object []) r = inr r) /\
  (forall i, storeInstance (json.Object []) i = inr i) /\
  (forall s, storeStats (json.Object []) s = inr s).
Proof.
  split.
  { intros H. apply decode_failure_to_caller. unfold Unmarshal. rewrite H. reflexivity. }
  split.
  { intros v Hp Hv. destruct v; try discriminate;
      (eexists; apply decode_failure_to_caller;
       unfold Unmarshal; rewrite Hp; reflexivity). }
  split.
  { intros v Hp Hf. destruct (Unmarshal_type_error data v Hp Hf) as [what E].
    exists what. apply decode_failure_to_caller, E. }
  split.
  { intros v Hp Hf. destruct (Unmarshal_fits data v Hp Hf) as [rs E].
    split; [eauto|]. intros err ch'.
    apply (no_decode_error_on_success data desc ch rs err ch' E). }
  split; [intros; unfold storeVr, json.storeStruct; apply storeMembers_skips_unknown|].
  split; [intros; unfold storeInstance, json.storeStruct; apply storeMembers_skips_unknown|].
  split; [intros; unfold storeStats, json.storeStruct; apply storeMembers_skips_unknown|].
  split; [intros f members r r'; apply storeVr_keeps|].
  split; [intros f members i i'; apply storeInstance_keeps|].
  split; [intros f members s s'; apply storeStats_keeps|].
  split.
  { intros vs rs Hp Hu. unfold Unmarshal in Hu. rewrite Hp in Hu.
    apply storeElements_each, Hu. }
  repeat split; reflexivity.
Qed.

Lemma decode_error_detection_examples :
  processVRRPInfo "[{" getVRRPDesc [] = Done (Some json.SyntaxError) [] /\
  (exists what,
     processVRRPInfo "{}" getVRRPDesc []
     = Done (Some (json.UnmarshalTypeError what)) []) /\
  (exists what,
     processVRRPInfo (dq "[{'vrid':1,'v4':{'stats':{'adverTx':'5'}}}]") getVRRPDesc []
     = Done (Some (json.UnmarshalTypeError what)) []) /\
  (exists what,
     processVRRPInfo (dq "[{'vrid':1,'v4':{'status':7}}]") getVRRPDesc []
     = Done (Some (json.UnmarshalTypeError what)) []) /\
  sameVrField fInterface zeroVr sparseVr /\
  sameVrField fV4Info zeroVr sparseVr.
Proof.
  split.
  { apply (proj1 (decode_error_detection "[{" getVRRPDesc [])).
    vm_compute. reflexivity. }
  split.
  { apply (proj1 (proj2 (decode_error_detection "{}" getVRRPDesc [])) (json.Object [])).
    - vm_compute. reflexivity.
    - reflexivity. }
  split.
  { eapply (proj1 (proj2 (proj2 (decode_error_detection
              (dq "[{'vrid':1,'v4':{'stats':{'adverTx':'5'}}}]") getVRRPDesc [])))).
    - vm_compute. reflexivity.
    - vm_compute. reflexivity. }
  split.
  { eapply (proj1 (proj2 (proj2 (decode_error_detection
              (dq "[{'vrid':1,'v4':{'status':7}}]") getVRRPDesc [])))).
    - vm_compute. reflexivity.
    - vm_compute. reflexivity. }
  pose proof (proj1 (proj2 (proj2 (proj2 (proj2 (proj2 (proj2 (proj2
                (decode_error_detection sparseInput getVRRPDesc []))))))))) as K.
  split.
  - apply (K fInterface
             [("vrid", json.Number "7");
              ("bogus", json.Array [json.Bool true; json.Object []])]
             zeroVr sparseVr).
    + intros m [<-|[<-|[]]]; vm_compute; discriminate.
    + vm_compute. reflexivity.
  - apply (K fV4Info
             [("vrid", json.Number "7");
              ("bogus", json.Array [json.Bool true; json.Object []])]
             zeroVr sparseVr).
    + intros m [<-|[<-|[]]]; vm_compute; discriminate.
    + vm_compute. reflexivity.
Defined.

(** C5, the claim as stated, fails: a record with an unknown member and
    without the members [interface], [v4] and [v6] decodes without error;
    the missing fields have their zero values and the observations are
    sent as for any other record. *)
Lemma missing_and_unknown_fields_are_tolerated :
  Unmarshal sparseInput = inr [sparseVr] /\
  processVRRPInfo sparseInput getVRRPDesc [] = Done None (recordMetrics sparseVr) /\
  length (recordMetrics sparseVr) = 6%nat.
Proof.
  split; [vm_compute; reflexivity|].
  split; [|reflexivity].
  rewrite (processVRRPInfo_run sparseInput [sparseVr] []) by (vm_compute; reflexivity).
  cbn [app flat_map]. rewrite app_nil_r. reflexivity.
Qed.

(** ** The BFD extractor *)

Lemma processBFDPeers_run decode help data peers ch :
  decode data = inr peers ->
  bfd.processBFDPeers decode data (bfd.getBFDDesc help) ch
  = Done None (ch ++ peerTableMetrics (bfd.getBFDDesc help) peers).
Proof.
  intros H. unfold bfd.processBFDPeers. rewrite H.
  erewrite seq_run by (unfold newGauge; apply send_run; reflexivity).
  erewrite seq_run.
  2:{ apply (forEach_run _ (peerMetrics (bfd.getBFDDesc help))). intros p ch0.
      erewrite seq_run by (unfold newCounter; apply send_run; reflexivity).
      unfold newGauge. rewrite send_run by reflexivity.
      unfold peerMetrics. rewrite <- app_assoc. reflexivity. }
  unfold ret, peerTableMetrics. rewrite <- app_assoc. reflexivity.
Qed.

(** C8.  When the peer table decodes to [peers], the BFD extractor returns
    no error and sends one peer-count gauge without labels, whose value is
    the number of records whatever their status, and then for each peer an
    uptime counter and a state gauge labelled (local, peer), the state
    being 1 exactly when the status code is 1 (up).  On the three peers of
    the example this is the count 3, the uptimes 847716, 847595, 847888
    and the states 1, 1, 0: the metrics [TestProcessBFDPeers] expects. *)
Theorem bfd_peer_table decode help data peers ch :
  decode data = inr peers ->
  (exists ms,
     bfd.processBFDPeers decode data (bfd.getBFDDesc help) ch = Done None (ch ++ ms) /\
     ms = mkMetric (mkDesc "frr_bfd_peer_count" (help "peer_count") [])
                   GaugeValue (Z.of_nat (length peers)) []
          :: flat_map (fun p =>
               [mkMetric (mkDesc "frr_bfd_peer_uptime" (help "peer_uptime") ["local"; "peer"])
                         CounterValue (Z.of_N (bfd.Uptime p)) [bfd.Local p; bfd.Peer p];
                mkMetric (mkDesc "frr_bfd_peer_state" (help "peer_state") ["local"; "peer"])
                         GaugeValue (if bfd.Status p =? 1 then 1 else 0)
                         [bfd.Local p; bfd.Peer p]]) peers /\
     length (List.filter (named "frr_bfd_peer_count") ms) = 1%nat /\
     length (List.filter (named "frr_bfd_peer_uptime") ms) = length peers /\
     length (List.filter (named "frr_bfd_peer_state") ms) = length peers) /\
  map value (emitted (bfd.processBFDPeers (fun _ => inr bfd.examplePeers) data
                                          (bfd.getBFDDesc help)))
  = [3; 847716; 1; 847595; 1; 847888; 0] /\
  gotMetrics (emitted (bfd.processBFDPeers (fun _ => inr bfd.examplePeers) data
                                           (bfd.getBFDDesc help)))
  = expectedBFDMetrics.
Proof.
  intros H. split.
  - eexists. split; [apply processBFDPeers_run, H|].
    split; [reflexivity|].
    unfold peerTableMetrics. cbn [List.filter].
    repeat match goal with
    | |- context [if named ?n ?m then _ else _] =>
      let b := eval vm_compute in (named n m) in
      change (named n m) with b; cbv iota
    end.
    cbn [length].
    rewrite !filter_flat_map.
    rewrite (length_flat_map_const _ 0), (length_flat_map_const _ 1), (length_flat_map_const _ 1);
      try (intros p; reflexivity).
    lia.
  - unfold emitted.
    rewrite (processBFDPeers_run (fun _ => inr bfd.examplePeers) help data bfd.examplePeers [] eq_refl).
    split; [reflexivity|].
    apply (bool_decide_unpack _). vm_compute. exact I.
Qed.

Lemma bfd_peer_table_example :
  (exists ms,
     bfd.processBFDPeers (fun _ => inr bfd.examplePeers) EmptyString
                         (bfd.getBFDDesc (fun _ => EmptyString)) []
     = Done None ([] ++ ms) /\
     ms = mkMetric (mkDesc "frr_bfd_peer_count" EmptyString [])
                   GaugeValue (Z.of_nat (length bfd.examplePeers)) []
          :: flat_map (fun p =>
               [mkMetric (mkDesc "frr_bfd_peer_uptime" EmptyString ["local"; "peer"])
                         CounterValue (Z.of_N (bfd.Uptime p)) [bfd.Local p; bfd.Peer p];
                mkMetric (mkDesc "frr_bfd_peer_state" EmptyString ["local"; "peer"])
                         GaugeValue (if bfd.Status p =? 1 then 1 else 0)
                         [bfd.Local p; bfd.Peer p]]) bfd.examplePeers /\
     length (List.filter (named "frr_bfd_peer_count") ms) = 1%nat /\
     length (List.filter (named "frr_bfd_peer_uptime") ms) = length bfd.examplePeers /\
     length (List.filter (named "frr_bfd_peer_state") ms) = length bfd.examplePeers) /\
  map value (emitted (bfd.processBFDPeers (fun _ => inr bfd.examplePeers) EmptyString
                                          (bfd.getBFDDesc (fun _ => EmptyString))))
  = [3; 847716; 1; 847595; 1; 847888; 0] /\
  gotMetrics (emitted (bfd.processBFDPeers (fun _ => inr bfd.examplePeers) EmptyString
                                           (bfd.getBFDDesc (fun _ => EmptyString))))
  = expectedBFDMetrics.
Proof.
  apply (bfd_peer_table (fun _ => inr bfd.examplePeers) (fun _ => EmptyString)
                        EmptyString bfd.examplePeers []).
  reflexivity.
Defined.

(** ** Ranges of the values *)

Lemma valueInRange_instanceMetrics proto vrid iface inst :
  Forall valueInRange (instanceMetrics proto vrid iface inst).
Proof.
  unfold instanceMetrics. apply Forall_app. split.
  - unfold stateBlock. cbn [map].
    repeat (apply List.Forall_cons;
      [unfold valueInRange, stateObservation; cbn [valType value];
       destruct (strings.EqualFold (Status inst) _); cbn [b2z]; lia|]).
    apply List.Forall_nil.
  - unfold counterBlock. apply Forall_flat_map. apply Forall_forall.
    intros f _. unfold counterObservations.
    destruct (statsValue f (Statistics inst)) as [x|];
      [apply List.Forall_cons; [|apply List.Forall_nil]|apply List.Forall_nil].
    unfold valueInRange. cbn [valType value]. lia.
Qed.

Lemma valueInRange_recordMetrics r : Forall valueInRange (recordMetrics r).
Proof.
  unfold recordMetrics. apply Forall_app.
  split; apply valueInRange_instanceMetrics.
Qed.

Lemma bfdValueInRange_peerTable help peers :
  Forall (bfdValueInRange (length peers))
         (peerTableMetrics (bfd.getBFDDesc help) peers).
Proof.
  unfold peerTableMetrics. apply List.Forall_cons.
  - unfold bfdValueInRange. cbn [valType value]. split; reflexivity.
  - apply Forall_flat_map. apply Forall_forall. intros p _.
    unfold peerMetrics.
    apply List.Forall_cons; [|apply List.Forall_cons; [|apply List.Forall_nil]].
    + unfold bfdValueInRange. cbn [valType value]. lia.
    + unfold bfdValueInRange. cbn [valType value].
      change (named "frr_bfd_peer_state" _) with true. cbv iota.
      destruct (bfd.Status p =? 1); cbn [b2z]; lia.
Qed.

(** C6 (as amended).  Every counter observation has a value that is not
    negative, and every state gauge, the VRRP state metric and the BFD
    peer-state metric alike, is 0 or 1; these are all the VRRP
    observations.  The BFD peer-count gauge is the number of decoded
    records. *)
Theorem values_in_range data rs ch decode help data' peers ch' :
  Unmarshal data = inr rs ->
  decode data' = inr peers ->
  (exists ms,
     processVRRPInfo data getVRRPDesc ch = Done None (ch ++ ms) /\
     Forall valueInRange ms) /\
  (exists ms,
     bfd.processBFDPeers decode data' (bfd.getBFDDesc help) ch' = Done None (ch' ++ ms) /\
     Forall (bfdValueInRange (length peers)) ms).
Proof.
  intros Hv Hb. split.
  - eexists. split; [apply processVRRPInfo_run, Hv|].
    apply Forall_flat_map. apply Forall_forall. intros r _.
    apply valueInRange_recordMetrics.
  - eexists. split; [apply processBFDPeers_run, Hb|].
    apply bfdValueInRange_peerTable.
Qed.

Lemma values_in_range_examples :
  (exists ms,
     processVRRPInfo exampleInput getVRRPDesc [] = Done None ([] ++ ms) /\
     Forall valueInRange ms) /\
  (exists ms,
     bfd.processBFDPeers (fun _ => inr bfd.examplePeers) EmptyString
                         (bfd.getBFDDesc (fun _ => EmptyString)) []
     = Done None ([] ++ ms) /\
     Forall (bfdValueInRange (length bfd.examplePeers)) ms).
Proof.
  apply (values_in_range exampleInput [exampleVr] []
           (fun _ => inr bfd.examplePeers) (fun _ => EmptyString)
           EmptyString bfd.examplePeers []).
  - vm_compute. reflexivity.
  - reflexivity.
Defined.

(** C6, the claim as stated, fails: on the three peers of
    [expectedBFDMetrics] the extractor sends the peer-count gauge with
    value 3, which is neither 0 nor 1. *)
Lemma peer_count_gauge_is_not_a_flag :
  exists m,
    nth_error (emitted (bfd.processBFDPeers (fun _ => inr bfd.examplePeers) EmptyString
                                            (bfd.getBFDDesc (fun _ => EmptyString)))) 0
    = Some m /\
    fqName (desc m) = "frr_bfd_peer_count" /\
    valType m = GaugeValue /\ value m = 3 /\
    expectedBFDMetrics !! "frr_bfd_peer_count{}" = Some 3 /\
    ~ (value m = 0 \/ value m = 1).
Proof.
  eexists. split; [vm_compute; reflexivity|].
  simpl. repeat split; try reflexivity. intros [H|H]; discriminate.
Qed.

(** ** Labels *)

Lemma FormatUint_nonempty n : strconv.FormatUint n <> EmptyString.
Proof.
  unfold strconv.FormatUint.
  assert (H : N.to_uint n <> Decimal.Nil).
  { destruct n as [|p]; [discriminate|]. apply DecimalPos.Unsigned.to_uint_nonnil. }
  destruct (N.to_uint n); [congruence|discriminate..].
Qed.

Lemma labelledFor_instanceMetrics r proto inst m :
  In m (instanceMetrics proto (Vrid r) (Interface r) inst) ->
  labelledFor r proto inst m.
Proof.
  unfold instanceMetrics. rewrite in_app_iff. intros [H|H].
  - unfold stateBlock in H. simpl in H.
    destruct H as [<-|[<-|[<-|[]]]]; (split; [reflexivity|]); simpl;
      (split; [reflexivity|]); eexists; (split; [|split; [|reflexivity]]);
      [ | discriminate | | discriminate | | discriminate];
      unfold vrrpStates; simpl; auto.
  - unfold counterBlock in H. apply in_flat_map in H as (f & _ & H).
    unfold counterObservations in H.
    destruct (statsValue f (Statistics inst)) as [x|]; [|destruct H].
    destruct H as [<-|[]]. split; [reflexivity|]. simpl. split; reflexivity.
Qed.

(** C7 (as amended).  Every observation of the VRRP extractor carries as
    many label values as its descriptor has label names, in the order of
    the names: proto, decimal vrid, interface, subinterface for a counter
    (4 values) and the state name after them for the state metric
    (5 values).  The proto, vrid and state values are never empty; the
    interface and subinterface values are the strings of the decoded
    record, whatever they are. *)
Theorem labels_match_descriptor data rs ch :
  Unmarshal data = inr rs ->
  exists ms,
    processVRRPInfo data getVRRPDesc ch = Done None (ch ++ ms) /\
    Forall (wellLabelled rs) ms.
Proof.
  intros H. eexists. split; [apply processVRRPInfo_run, H|].
  apply Forall_flat_map. apply List.Forall_forall. intros r Hr.
  apply List.Forall_forall. intros m Hm.
  exists r. split; [exact Hr|]. split; [|apply FormatUint_nonempty].
  unfold recordMetrics in Hm. apply in_app_iff in Hm as [Hm|Hm];
    [left|right]; apply labelledFor_instanceMetrics, Hm.
Qed.

Lemma labels_match_descriptor_example :
  exists ms,
    processVRRPInfo exampleInput getVRRPDesc [] = Done None ([] ++ ms) /\
    Forall (wellLabelled [exampleVr]) ms.
Proof.
  apply (labels_match_descriptor exampleInput [exampleVr] []).
  vm_compute. reflexivity.
Defined.

(** C7, the claim as stated, fails: the spec's end-to-end example names no
    subinterface, and its observations are sent all the same, with the
    empty string as the subinterface label. *)
Lemma empty_label_value_is_emitted :
  Unmarshal exampleInput = inr [exampleVr] /\
  nth_error (emitted (processVRRPInfo exampleInput getVRRPDesc)) 0
  = Some (mkMetric vrrpStateDesc GaugeValue 0
                   ["v4"; "1"; "eth0"; EmptyString; "Initialize"]) /\
  In EmptyString ["v4"; "1"; "eth0"; EmptyString; "Initialize"].
Proof.
  split; [vm_compute; reflexivity|].
  split; [vm_compute; reflexivity|].
  simpl. auto.
Qed.

(** * Further properties of the extractor *)

(** ** The channel is only appended to *)

Lemma appendOnly_ret {A : Type} (a : A) : appendOnly (ret a).
Proof. intros ch. unfold ret. rewrite app_nil_r. reflexivity. Qed.

Lemma appendOnly_send d t v labels : appendOnly (send d t v labels).
Proof.
  intros ch. unfold send. destruct d as [d|]; [|reflexivity].
  destruct (length labels =? length (variableLabels d))%nat; reflexivity.
Qed.

Lemma appendOnly_seq {A B : Type} (c : Emit A) (k : A -> Emit B) :
  appendOnly c -> (forall a, appendOnly (k a)) -> appendOnly (seq c k).
Proof.
  intros Hc Hk ch. unfold seq. rewrite (Hc ch).
  destruct (c []) as [a ms|]; [|reflexivity].
  rewrite (Hk a (ch ++ ms)), (Hk a ms).
  destruct (k a []) as [b ms'|]; [|reflexivity].
  rewrite app_assoc. reflexivity.
Qed.

Lemma appendOnly_forEach {A : Type} (l : list A) (body : A -> Emit unit) :
  (forall x, appendOnly (body x)) -> appendOnly (forEach l body).
Proof.
  intros Hb. induction l as [|x l IH]; cbn [forEach].
  - apply appendOnly_ret.
  - apply appendOnly_seq; [apply Hb|intros _; exact IH].
Qed.

Lemma appendOnly_counterIfPresent p d labels :
  appendOnly (counterIfPresent p d labels).
Proof.
  destruct p; [apply appendOnly_send|apply appendOnly_ret].
Qed.

Lemma appendOnly_processInstance proto vrid iface inst desc :
  appendOnly (processInstance proto vrid iface inst desc).
Proof.
  unfold processInstance.
  apply appendOnly_seq;
    [apply appendOnly_forEach; intros st; apply appendOnly_send|intros _].
  repeat (apply appendOnly_seq; [apply appendOnly_counterIfPresent|intros _]).
  apply appendOnly_counterIfPresent.
Qed.

(** X1.  Whatever descriptor map it is given, [processVRRPInfo] only
    appends to the channel: what was sent before the call is still there,
    in the same order, and the observations it adds and the error it
    returns do not depend on what the channel held. *)
Theorem processVRRPInfo_appends data desc ch :
  processVRRPInfo data desc ch
  = match processVRRPInfo data desc [] with
    | Done err ms => Done err (ch ++ ms)
    | Panic => Panic
    end.
Proof.
  revert ch. change (appendOnly (processVRRPInfo data desc)).
  unfold processVRRPInfo. destruct (Unmarshal data) as [err|rs].
  - apply appendOnly_ret.
  - apply appendOnly_seq; [|intros _; apply appendOnly_ret].
    apply appendOnly_forEach. intros r.
    apply appendOnly_seq; [|intros _]; apply appendOnly_processInstance.
Qed.

(** ** The whole output, in order *)

(** X2.  When the input decodes to the records [rs], the observations
    [processVRRPInfo] sends are exactly these, in this order: record by
    record in input order; for each record the v4 sub-record before the v6
    sub-record; for each sub-record the three state gauges (Initialize,
    Master, Backup) and then the counters that are present, in the order
    adverTx, adverRx, garpTx, neighborAdverTx, transitions. *)
Theorem processVRRPInfo_output data rs ch :
  Unmarshal data = inr rs ->
  processVRRPInfo data getVRRPDesc ch
  = Done None
      (ch ++ flat_map (fun r =>
         flat_map (fun '(proto, inst) =>
           map (stateObservation proto (Vrid r) (Interface r) inst)
               ["Initialize"; "Master"; "Backup"] ++
           flat_map (counterObservations proto (Vrid r) (Interface r) inst)
               [fAdverTx; fAdverRx; fGarpTx; fNeighborAdverTx; fTransitions])
         [("v4", V4Info r); ("v6", V6Info r)]) rs).
Proof.
  intros H. rewrite (processVRRPInfo_run data rs ch H).
  do 2 f_equal. apply flat_map_ext. intros r.
  unfold recordMetrics, instanceMetrics, stateBlock, counterBlock, allStatsFields.
  cbn [flat_map]. rewrite !app_nil_r. reflexivity.
Qed.

Lemma processVRRPInfo_output_example :
  processVRRPInfo exampleInput getVRRPDesc []
  = Done None
      ([] ++ flat_map (fun r =>
         flat_map (fun '(proto, inst) =>
           map (stateObservation proto (Vrid r) (Interface r) inst)
               ["Initialize"; "Master"; "Backup"] ++
           flat_map (counterObservations proto (Vrid r) (Interface r) inst)
               [fAdverTx; fAdverRx; fGarpTx; fNeighborAdverTx; fTransitions])
         [("v4", V4Info r); ("v6", V6Info r)]) [exampleVr]).
Proof.
  apply (processVRRPInfo_output exampleInput [exampleVr] []).
  vm_compute. reflexivity.
Defined.

(** ** How many observations *)

Lemma length_counterBlock proto vrid iface inst :
  length (counterBlock proto vrid iface inst) = countPresent (Statistics inst).
Proof.
  unfold counterBlock, countPresent, allStatsFields, counterObservations.
  destruct inst as [sub st [a b c d e]]. cbn [Statistics statsValue flat_map List.filter].
  destruct a, b, c, d, e; reflexivity.
Qed.

Lemma countPresent_le s : (countPresent s <= 5)%nat.
Proof.
  unfold countPresent. etransitivity; [apply List.filter_length_le|]. reflexivity.
Qed.

Lemma length_recordMetrics r :
  length (recordMetrics r) = (6 + presentCounters r)%nat.
Proof.
  unfold recordMetrics, instanceMetrics, presentCounters.
  rewrite !length_app, !length_counterBlock. cbn [stateBlock map length]. lia.
Qed.

(** X3.  A record yields six observations plus one for every statistics
    pointer that is not [nil] in its two sub-records, so between 6 and 16;
    a table of [n] records yields between [6 n] and [16 n]. *)
Theorem observation_count data rs ch :
  Unmarshal data = inr rs ->
  exists ms,
    processVRRPInfo data getVRRPDesc ch = Done None (ch ++ ms) /\
    length ms = (6 * length rs + list_sum (map presentCounters rs))%nat /\
    (6 * length rs <= length ms <= 16 * length rs)%nat.
Proof.
  intros H. exists (flat_map recordMetrics rs).
  split; [apply processVRRPInfo_run, H|].
  assert (E : length (flat_map recordMetrics rs)
              = (6 * length rs + list_sum (map presentCounters rs))%nat).
  { clear H. induction rs as [|r rs IH]; [reflexivity|].
    cbn [flat_map map length]. rewrite length_app, length_recordMetrics, IH.
    change (list_sum (presentCounters r :: map presentCounters rs))
      with (presentCounters r + list_sum (map presentCounters rs))%nat.
    lia. }
  split; [exact E|]. rewrite E.
  assert (B : (list_sum (map presentCounters rs) <= 10 * length rs)%nat).
  { clear. induction rs as [|r rs IH]; [cbn; lia|].
    cbn [map length].
    change (list_sum (presentCounters r :: map presentCounters rs))
      with (presentCounters r + list_sum (map presentCounters rs))%nat.
    unfold presentCounters at 1.
    pose proof (countPresent_le (Statistics (V4Info r))).
    pose proof (countPresent_le (Statistics (V6Info r))). lia. }
  lia.
Qed.

Lemma observation_count_example :
  exists ms,
    processVRRPInfo exampleInput getVRRPDesc [] = Done None ([] ++ ms) /\
    length ms = (6 * length [exampleVr] + list_sum (map presentCounters [exampleVr]))%nat /\
    (6 * length [exampleVr] <= length ms <= 16 * length [exampleVr])%nat.
Proof.
  apply (observation_count exampleInput [exampleVr] []).
  vm_compute. reflexivity.
Defined.

(** ** The collector's update *)

(** X4.  [Update] runs the command [show vrrp json].  When the command
    fails it returns that error; when its output does not decode it returns
    the decoder's error wrapped by [cmdOutputProcessError] together with
    the command and the output; in both cases nothing is sent.  Otherwise
    it returns no error and sends the observations of the decoded records.
    So an error is returned exactly when nothing of the scrape is sent on
    account of a failure, and then the channel is as it was. *)
Theorem Update_outcome (cmdError : Type)
    (executeVRRPCommand : string -> cmdError + string)
    (cmdOutputProcessError : string -> string -> json.error -> cmdError) ch :
  Update cmdError executeVRRPCommand cmdOutputProcessError ch
  = match executeVRRPCommand "show vrrp json" with
    | inl err => Done (Some err) ch
    | inr out =>
      match Unmarshal out with
      | inl err => Done (Some (cmdOutputProcessError "show vrrp json" out err)) ch
      | inr rs => Done None (ch ++ flat_map recordMetrics rs)
      end
    end
  /\
  (forall err ch',
     Update cmdError executeVRRPCommand cmdOutputProcessError ch = Done (Some err) ch' ->
     ch' = ch).
Proof.
  assert (E : Update cmdError executeVRRPCommand cmdOutputProcessError ch
  = match executeVRRPCommand "show vrrp json" with
    | inl err => Done (Some err) ch
    | inr out =>
      match Unmarshal out with
      | inl err => Done (Some (cmdOutputProcessError "show vrrp json" out err)) ch
      | inr rs => Done None (ch ++ flat_map recordMetrics rs)
      end
    end).
  { unfold Update. destruct (executeVRRPCommand "show vrrp json") as [err|out];
      [reflexivity|].
    destruct (Unmarshal out) as [err|rs] eqn:Hu.
    - rewrite (seq_run _ _ _ _ _ (decode_failure_to_caller out getVRRPDesc ch err Hu)).
      reflexivity.
    - rewrite (seq_run _ _ _ _ _ (processVRRPInfo_run out rs ch Hu)). reflexivity. }
  split; [exact E|].
  intros err ch'. rewrite E.
  destruct (executeVRRPCommand "show vrrp json") as [e|out].
  - intros H. injection H as _ <-. reflexivity.
  - destruct (Unmarshal out) as [e|rs].
    + intros H. injection H as _ <-. reflexivity.
    + discriminate.
Qed.

(** ** Decoded numbers fit their type *)

Lemma ParseUint32_range s n : strconv.ParseUint32 s = Some n -> uint32 n.
Proof.
  unfold strconv.ParseUint32, uint32. destruct s as [|c s]; [discriminate|].
  destruct (strconv.allDigits (String c s)); [|discriminate].
  destruct (N.ltb_spec (strconv.digitsValue 0 (String c s)) 4294967296);
    [|discriminate].
  intros E. injection E as <-. assumption.
Qed.

Lemma storeUint32_range v cur n :
  uint32 cur -> json.storeUint32 v cur = inr n -> uint32 n.
Proof.
  intros Hc. destruct v; cbn [json.storeUint32]; try discriminate.
  - intros E. injection E as <-. exact Hc.
  - destruct (strconv.ParseUint32 lit) as [m|] eqn:E; [|discriminate].
    intros E'. injection E' as <-. apply (ParseUint32_range _ _ E).
Qed.

Lemma storeUint32Ptr_range v cur p :
  uint32Ptr cur -> json.storeUint32Ptr v cur = inr p -> uint32Ptr p.
Proof.
  intros Hc H.
  assert (H0 : uint32 (default 0%N cur)).
  { destruct cur as [n|]; [exact Hc|reflexivity]. }
  destruct v; cbn [json.storeUint32Ptr] in H;
    try (injection H as <-; exact I);
    unfold json.bind in H;
    match type of H with
    | context [json.storeUint32 ?v ?c] =>
      destruct (json.storeUint32 v c) as [e|n] eqn:E; [discriminate|];
      injection H as <-; apply (storeUint32_range _ _ _ H0 E)
    end.
Qed.

Lemma storeMembers_inv {T F : Type} (P : T -> Prop) (fields : list (string * F))
    (set : F -> json.value -> T -> json.res T) :
  (forall f x cur cur', P cur -> set f x cur = inr cur' -> P cur') ->
  forall ms cur cur',
    P cur -> json.storeMembers fields set ms cur = inr cur' -> P cur'.
Proof.
  intros Hset. induction ms as [|[key x] ms IH]; intros cur cur' Hc H.
  - injection H as <-. exact Hc.
  - cbn [json.storeMembers] in H. unfold json.bind in H.
    destruct (json.lookupField fields key) as [f|].
    + destruct (set f x cur) as [e|c1] eqn:E; [discriminate|].
      apply (IH c1 cur'); [apply (Hset f x cur c1 Hc E)|exact H].
    + apply (IH cur cur' Hc H).
Qed.

Lemma storeStruct_inv {T F : Type} (P : T -> Prop) (fields : list (string * F))
    (set : F -> json.value -> T -> json.res T) :
  (forall f x cur cur', P cur -> set f x cur = inr cur' -> P cur') ->
  forall v cur cur',
    P cur -> json.storeStruct fields set v cur = inr cur' -> P cur'.
Proof.
  intros Hset v cur cur' Hc H. destruct v; cbn [json.storeStruct] in H;
    try discriminate.
  - injection H as <-. exact Hc.
  - apply (storeMembers_inv P fields set Hset _ _ _ Hc H).
Qed.

Lemma setStats_wf f x s s' : wfStats s -> setStats f x s = inr s' -> wfStats s'.
Proof.
  intros (H1 & H2 & H3 & H4 & H5) H.
  destruct f; cbn [setStats] in H; unfold json.bind in H;
    match type of H with
    | context [json.storeUint32Ptr ?v ?c] =>
      destruct (json.storeUint32Ptr v c) as [e|p] eqn:E; [discriminate|];
      injection H as <-;
      apply storeUint32Ptr_range in E; [|assumption]
    end;
    unfold wfStats; cbn; auto.
Qed.

Lemma setInstance_wf f x i i' :
  wfStats (Statistics i) -> setInstance f x i = inr i' -> wfStats (Statistics i').
Proof.
  intros Hw H.
  destruct f; cbn [setInstance] in H; unfold json.bind in H.
  - destruct (json.storeString x (Subinterface i)); [discriminate|].
    injection H as <-. exact Hw.
  - destruct (json.storeString x (Status i)); [discriminate|].
    injection H as <-. exact Hw.
  - destruct (storeStats x (Statistics i)) as [e|st] eqn:E; [discriminate|].
    injection H as <-. cbn [Statistics].
    apply (storeStruct_inv wfStats statsFields setStats setStats_wf _ _ _ Hw E).
Qed.

Lemma storeInstance_wf x i i' :
  wfStats (Statistics i) -> storeInstance x i = inr i' -> wfStats (Statistics i').
Proof.
  apply (storeStruct_inv (fun i => wfStats (Statistics i))
                         instanceFields setInstance setInstance_wf).
Qed.

Lemma setVr_wf f x r r' : wfVr r -> setVr f x r = inr r' -> wfVr r'.
Proof.
  intros (H1 & H2 & H3) H.
  destruct f; cbn [setVr] in H; unfold json.bind in H.
  - destruct (json.storeUint32 x (Vrid r)) as [e|n] eqn:E; [discriminate|].
    injection H as <-. (split; [|split]); cbn [Vrid V6Info V4Info]; try assumption.
    apply (storeUint32_range _ _ _ H1 E).
  - destruct (json.storeString x (Interface r)); [discriminate|].
    injection H as <-. (split; [|split]); cbn [Vrid V6Info V4Info]; assumption.
  - destruct (storeInstance x (V6Info r)) as [e|i] eqn:E; [discriminate|].
    injection H as <-. (split; [|split]); cbn [Vrid V6Info V4Info]; try assumption.
    apply (storeInstance_wf _ _ _ H2 E).
  - destruct (storeInstance x (V4Info r)) as [e|i] eqn:E; [discriminate|].
    injection H as <-. (split; [|split]); cbn [Vrid V6Info V4Info]; try assumption.
    apply (storeInstance_wf _ _ _ H3 E).
Qed.

Lemma wfVr_zero : wfVr zeroVr.
Proof. repeat split. Qed.

Lemma storeElements_wf vs rs :
  json.storeElements zeroVr storeVr vs = inr rs -> Forall wfVr rs.
Proof.
  revert rs. induction vs as [|v vs IH]; intros rs H; cbn [json.storeElements] in H.
  - injection H as <-. constructor.
  - unfold json.bind in H.
    destruct (storeVr v zeroVr) as [e|r] eqn:E; [discriminate|].
    destruct (json.storeElements zeroVr storeVr vs) as [e|rs']; [discriminate|].
    injection H as <-. constructor; [|apply IH; reflexivity].
    apply (storeStruct_inv wfVr vrFields setVr setVr_wf _ _ _ wfVr_zero E).
Qed.

Lemma Unmarshal_wf data rs : Unmarshal data = inr rs -> Forall wfVr rs.
Proof.
  unfold Unmarshal. destruct (json.parse data) as [v|]; [|discriminate].
  destruct v; cbn [json.storeSlice]; try discriminate.
  - intros H. injection H as <-. constructor.
  - apply storeElements_wf.
Qed.

Lemma value_range_instanceMetrics proto vrid iface inst :
  wfStats (Statistics inst) ->
  Forall (fun m => 0 <= value m < 4294967296)
         (instanceMetrics proto vrid iface inst).
Proof.
  intros Hw. unfold instanceMetrics. apply Forall_app. split.
  - unfold stateBlock. cbn [map].
    repeat (apply List.Forall_cons;
      [unfold stateObservation; cbn [value];
       destruct (strings.EqualFold (Status inst) _); cbn [b2z]; lia|]).
    apply List.Forall_nil.
  - unfold counterBlock. apply Forall_flat_map. apply List.Forall_forall.
    intros f _. unfold counterObservations.
    destruct (statsValue f (Statistics inst)) as [x|] eqn:E;
      [apply List.Forall_cons; [|apply List.Forall_nil]|apply List.Forall_nil].
    cbn [value].
    assert (Hx : uint32 x).
    { destruct Hw as (H1 & H2 & H3 & H4 & H5).
      destruct f; cbn [statsValue] in E;
        match goal with
        | Hp : uint32Ptr ?p, Ep : ?p = Some x |- _ => rewrite Ep in Hp; exact Hp
        end. }
    unfold uint32 in Hx. lia.
Qed.

(** X5.  The numbers of a decoded table fit their Go type: the vrid and
    every counter that is present are below [2^32].  Hence every value the
    extractor sends is a whole number from 0 up to but excluding [2^32],
    which a [float64] holds exactly. *)
Theorem decoded_numbers_fit data rs ch :
  Unmarshal data = inr rs ->
  Forall wfVr rs /\
  exists ms,
    processVRRPInfo data getVRRPDesc ch = Done None (ch ++ ms) /\
    Forall (fun m => 0 <= value m < 4294967296) ms.
Proof.
  intros H. pose proof (Unmarshal_wf data rs H) as Hw.
  split; [exact Hw|].
  eexists. split; [apply processVRRPInfo_run, H|].
  apply Forall_flat_map. rewrite List.Forall_forall in Hw.
  apply List.Forall_forall. intros r Hr.
  destruct (Hw r Hr) as (H1 & H2 & H3).
  unfold recordMetrics. apply Forall_app.
  split; apply value_range_instanceMetrics; assumption.
Qed.

Lemma decoded_numbers_fit_example :
  Forall wfVr [exampleVr] /\
  exists ms,
    processVRRPInfo exampleInput getVRRPDesc [] = Done None ([] ++ ms) /\
    Forall (fun m => 0 <= value m < 4294967296) ms.
Proof.
  apply (decoded_numbers_fit exampleInput [exampleVr] []).
  vm_compute. reflexivity.
Defined.

(** ** The vrid label *)

Lemma string_of_uint_inj d d' :
  NilEmpty.string_of_uint d = NilEmpty.string_of_uint d' -> d = d'.
Proof.
  intros H. pose proof (NilEmpty.usu d) as E. rewrite H, NilEmpty.usu in E.
  congruence.
Qed.

(** X6.  Different virtual-router ids are rendered as different vrid
    labels: [strconv.FormatUint] maps no two numbers to the same text. *)
Theorem vrid_label_injective vrid vrid' :
  strconv.FormatUint vrid = strconv.FormatUint vrid' -> vrid = vrid'.
Proof.
  unfold strconv.FormatUint. intros H.
  apply DecimalN.Unsigned.to_uint_inj, string_of_uint_inj, H.
Qed.

Lemma vrid_label_injective_example : 7%N = 7%N.
Proof.
  apply (vrid_label_injective 7 7). reflexivity.
Defined.

(** X7.  Parsing the decimal text of a number that fits 32 bits gives the
    number back, so a vrid written by the daemon in decimal and read by
    the decoder is rendered in the vrid label with the same digits. *)
Theorem vrid_text_round_trip n cur :
  uint32 n ->
  strconv.ParseUint32 (strconv.FormatUint n) = Some n /\
  json.storeUint32 (json.Number (strconv.FormatUint n)) cur = inr n /\
  strconv.FormatUint n <> EmptyString.
Proof.
  intros Hn.
  assert (E : strconv.ParseUint32 (strconv.FormatUint n) = Some n).
  { unfold strconv.ParseUint32.
    pose proof (FormatUint_nonempty n) as Hne.
    destruct (strconv.FormatUint n) as [|c s] eqn:Es; [congruence|].
    rewrite <- Es. unfold strconv.FormatUint.
    rewrite allDigits_string_of_uint, digitsValue_of_uint, DecimalN.Unsigned.of_to.
    unfold uint32 in Hn. apply N.ltb_lt in Hn. rewrite Hn. reflexivity. }
  split; [exact E|]. split; [|apply FormatUint_nonempty].
  cbn [json.storeUint32]. rewrite E. reflexivity.
Qed.

Lemma vrid_text_round_trip_example :
  strconv.ParseUint32 (strconv.FormatUint 4294967295) = Some 4294967295%N /\
  json.storeUint32 (json.Number (strconv.FormatUint 4294967295)) 0%N
  = inr 4294967295%N /\
  strconv.FormatUint 4294967295 <> EmptyString.
Proof.
  apply (vrid_text_round_trip 4294967295 0). reflexivity.
Defined.

(** ** Matching an ASCII status *)

(** X8.  For a status made of ASCII bytes, a state observation is 1 exactly
    when the status and the state name are the same byte for byte after
    the upper-case letters A to Z are put in lower case: the status must
    have the length of the name, and nothing but letter case may differ. *)
Theorem ascii_status_matching proto vrid iface inst :
  isASCII (Status inst) = true ->
  (forall t, isASCII t = true ->
     (strings.EqualFold (Status inst) t = true
      <-> lowerBytes (Status inst) = lowerBytes t)) /\
  stateValues (emitted (processInstance proto vrid iface inst getVRRPDesc))
  = map (fun state =>
           b2z (bool_decide (lowerBytes (Status inst) = lowerBytes state)))
        vrrpStates.
Proof.
  intros Hs. split; [intros t Ht; apply EqualFold_ascii; assumption|].
  rewrite stateValues_processInstance.
  apply map_ext_in. intros st Hin. f_equal.
  assert (Ht : isASCII st = true).
  { unfold vrrpStates in Hin. cbn in Hin.
    destruct Hin as [<-|[<-|[<-|[]]]]; reflexivity. }
  pose proof (EqualFold_ascii (Status inst) st Hs Ht) as E.
  destruct (strings.EqualFold (Status inst) st).
  - symmetry. apply bool_decide_eq_true. apply E. reflexivity.
  - symmetry. apply bool_decide_eq_false. intros H. apply E in H. discriminate.
Qed.

Lemma ascii_status_matching_example :
  (forall t, isASCII t = true ->
     (strings.EqualFold "mAsTeR" t = true
      <-> lowerBytes "mAsTeR" = lowerBytes t)) /\
  stateValues (emitted (processInstance "v4" 1 "eth0"
                 (mkInstance EmptyString "mAsTeR" zeroStats) getVRRPDesc))
  = map (fun state =>
           b2z (bool_decide (lowerBytes "mAsTeR" = lowerBytes state)))
        vrrpStates.
Proof.
  apply (ascii_status_matching "v4" 1 "eth0"
           (mkInstance EmptyString "mAsTeR" zeroStats)).
  reflexivity.
Defined.

(** ** Which member fills which field *)

(** X9.  The member of a JSON object that fills a field is found by the
    field's JSON name, compared without regard to case: [Vrid],
    [Interface], [v6], [v4] in a record; [interface] (for the
    subinterface), [Status], [stats] in a family sub-record; the five Go
    names in the statistics.  Members named [subinterface] or
    [statistics] fill nothing. *)
Theorem field_selection key :
  json.lookupField vrFields key
  = selectFolded [("VRID", fVrid); ("INTERFACE", fInterface);
                  ("V6", fV6Info); ("V4", fV4Info)] key /\
  json.lookupField instanceFields key
  = selectFolded [("INTERFACE", fSubinterface); ("STATUS", fStatus);
                  ("STATS", fStatistics)] key /\
  json.lookupField statsFields key
  = selectFolded [("ADVERTX", fAdverTx); ("ADVERRX", fAdverRx);
                  ("GARPTX", fGarpTx); ("NEIGHBORADVERTX", fNeighborAdverTx);
                  ("TRANSITIONS", fTransitions)] key /\
  json.lookupField instanceFields "subinterface" = None /\
  json.lookupField instanceFields "statistics" = None.
Proof.
  split; [apply lookup_vrFields|].
  split; [apply lookup_instanceFields|].
  split; [apply lookup_statsFields|].
  split; reflexivity.
Qed.

(** ** What the test compares *)

Lemma filter_nil_iff {A : Type} (p : A -> bool) (l : list A) :
  List.filter p l = [] <-> (forall x, In x l -> p x = false).
Proof.
  induction l as [|a l IH]; cbn [List.filter].
  - split; [intros _ x []|reflexivity].
  - destruct (p a) eqn:E.
    + split; [discriminate|]. intros H. rewrite (H a) in E; [discriminate|left; reflexivity].
    + rewrite IH. split.
      * intros H x [<-|Hx]; [exact E|apply H, Hx].
      * intros H x Hx. apply H. right. exact Hx.
Qed.

Lemma In_map_to_list (m : gmap string Z) name val :
  In (name, val) (map_to_list m) <-> m !! name = Some val.
Proof. rewrite <- list_elem_of_In. apply elem_of_map_to_list. Qed.

(** X10.  The two comparison loops of [TestProcessBFDPeers] find nothing
    to report exactly when the map built from the channel equals the map
    of expected metrics: same keys, same values. *)
Theorem test_accepts_iff_equal (got expected : gmap string Z) :
  wrongOrUnexpected got expected = [] /\ missingMetrics got expected = []
  <-> got = expected.
Proof.
  unfold wrongOrUnexpected, missingMetrics. rewrite !filter_nil_iff. split.
  - intros [Hg He]. apply map_eq. intros name.
    destruct (got !! name) as [val|] eqn:G.
    + specialize (Hg (name, val) (proj2 (In_map_to_list got name val) G)).
      cbn [fst snd] in Hg. apply negb_false_iff, bool_decide_eq_true in Hg.
      symmetry. exact Hg.
    + destruct (expected !! name) as [val|] eqn:E; [|reflexivity].
      specialize (He (name, val) (proj2 (In_map_to_list expected name val) E)).
      cbn [fst snd] in He. apply negb_false_iff, bool_decide_eq_true in He.
      rewrite G in He. destruct He as [x Hx]. discriminate.
  - intros ->. split; intros [name val] Hin; apply In_map_to_list in Hin;
      cbn [fst snd]; apply negb_false_iff, bool_decide_eq_true.
    + exact Hin.
    + rewrite Hin. eexists. reflexivity.
Qed.

Lemma gotMetrics_app ch m :
  gotMetrics (ch ++ [m]) = <[metricKey m := value m]> (gotMetrics ch).
Proof. unfold gotMetrics. rewrite fold_left_app. reflexivity. Qed.

(** X11.  The test files every metric read from the channel under its key
    and keeps one value per key: a key is present exactly when some metric
    on the channel has it, and of several metrics with one key the value
    of the last one is kept. *)
Theorem gotMetrics_last_wins ch1 m ch2 :
  Forall (fun m' => metricKey m' <> metricKey m) ch2 ->
  gotMetrics (ch1 ++ m :: ch2) !! metricKey m = Some (value m) /\
  (forall key, is_Some (gotMetrics (ch1 ++ m :: ch2) !! key)
               <-> In key (map metricKey (ch1 ++ m :: ch2))).
Proof.
  intros Hne. split.
  - induction ch2 as [|m2 ch2 IH] using rev_ind.
    + rewrite gotMetrics_app. apply lookup_insert_eq.
    + apply Forall_app in Hne as [Hne H2].
      rewrite app_comm_cons, app_assoc, gotMetrics_app.
      rewrite lookup_insert_ne; [apply IH, Hne|].
      apply List.Forall_inv in H2. exact H2.
  - clear Hne. intros key. generalize (ch1 ++ m :: ch2) as ch. clear.
    induction ch as [|m ch IH] using rev_ind.
    + cbn. split; [intros [x Hx]; discriminate|intros []].
    + rewrite gotMetrics_app, map_app, in_app_iff. cbn [map In].
      destruct (String.eqb_spec (metricKey m) key) as [->|Hk].
      * rewrite lookup_insert_eq. split; [auto|eauto].
      * rewrite lookup_insert_ne by exact Hk. rewrite IH. tauto.
Qed.

Lemma gotMetrics_last_wins_example :
  gotMetrics ([mkMetric vrrpStateDesc GaugeValue 0 []] ++
              mkMetric vrrpStateDesc GaugeValue 1 [] :: [])
    !! metricKey (mkMetric vrrpStateDesc GaugeValue 1 []) = Some 1 /\
  (forall key,
     is_Some (gotMetrics ([mkMetric vrrpStateDesc GaugeValue 0 []] ++
                          mkMetric vrrpStateDesc GaugeValue 1 [] :: []) !! key)
     <-> In key (map metricKey ([mkMetric vrrpStateDesc GaugeValue 0 []] ++
                                mkMetric vrrpStateDesc GaugeValue 1 [] :: []))).
Proof.
  apply (gotMetrics_last_wins [mkMetric vrrpStateDesc GaugeValue 0 []]
           (mkMetric vrrpStateDesc GaugeValue 1 []) []).
  constructor.
Defined.

(** ** No series is sent twice *)

Lemma NoDup_map_compose {A B C : Type} (f : A -> B) (h : B -> C) (l : list A) :
  List.NoDup (map (fun x => h (f x)) l) -> List.NoDup (map f l).
Proof.
  intros H. apply (List.NoDup_map_inv h). rewrite map_map. exact H.
Qed.

Lemma series_instanceMetrics proto vrid iface inst :
  List.NoDup (map seriesOf (instanceMetrics proto vrid iface inst)).
Proof.
  apply (NoDup_map_compose seriesOf
           (fun s => (fst s, nth 4 (snd s) EmptyString))).
  unfold instanceMetrics, stateBlock, counterBlock, allStatsFields,
    counterObservations.
  destruct inst as [sub st [a b c d e]]. cbn [Statistics statsValue flat_map].
  destruct a, b, c, d, e; cbn;
    repeat (apply List.NoDup_cons;
            [cbn; intros H;
             repeat (destruct H as [H|H]; [discriminate H|]); exact H|]);
    apply List.NoDup_nil.
Qed.

Lemma labels_instanceMetrics proto vrid iface inst m :
  In m (instanceMetrics proto vrid iface inst) ->
  firstn 3 (labelValues m) = [proto; strconv.FormatUint vrid; iface].
Proof.
  unfold instanceMetrics. rewrite in_app_iff. intros [H|H].
  - unfold stateBlock in H. cbn in H.
    destruct H as [<-|[<-|[<-|[]]]]; reflexivity.
  - unfold counterBlock in H. apply in_flat_map in H as (f & _ & H).
    unfold counterObservations in H.
    destruct (statsValue f (Statistics inst)) as [x|]; [|destruct H].
    destruct H as [<-|[]]. reflexivity.
Qed.

Lemma NoDup_app_disjoint {A : Type} (l k : list A) :
  List.NoDup l -> List.NoDup k -> (forall x, In x l -> In x k -> False) ->
  List.NoDup (l ++ k).
Proof.
  intros Hl Hk Hd. induction l as [|a l IH]; [exact Hk|].
  cbn [app]. apply List.NoDup_cons_iff in Hl as [Ha Hl].
  apply List.NoDup_cons.
  - rewrite in_app_iff. intros [H|H]; [exact (Ha H)|].
    apply (Hd a); [left; reflexivity|exact H].
  - apply IH; [exact Hl|]. intros x Hx. apply Hd. right. exact Hx.
Qed.

Lemma series_recordMetrics r : List.NoDup (map seriesOf (recordMetrics r)).
Proof.
  unfold recordMetrics. rewrite map_app.
  apply NoDup_app_disjoint; try apply series_instanceMetrics.
  intros s H4 H6.
  apply in_map_iff in H4 as (m4 & <- & H4).
  apply in_map_iff in H6 as (m6 & E & H6).
  apply labels_instanceMetrics in H4, H6.
  unfold seriesOf in E. injection E as _ E. rewrite E in H6.
  rewrite H4 in H6. discriminate.
Qed.

(** X12.  If no two records of the decoded table have both the same vrid
    and the same interface, then no two observations sent have the same
    metric name and the same label values: every time series appears at
    most once in a scrape. *)
Theorem no_series_twice data rs ch :
  Unmarshal data = inr rs ->
  List.NoDup (map (fun r => (Vrid r, Interface r)) rs) ->
  exists ms,
    processVRRPInfo data getVRRPDesc ch = Done None (ch ++ ms) /\
    List.NoDup (map seriesOf ms).
Proof.
  intros H Hd. exists (flat_map recordMetrics rs).
  split; [apply processVRRPInfo_run, H|]. clear H.
  induction rs as [|r rs IH]; [constructor|].
  cbn [map] in Hd. apply List.NoDup_cons_iff in Hd as [Hr Hd].
  cbn [flat_map]. rewrite map_app.
  apply NoDup_app_disjoint; [apply series_recordMetrics|apply IH, Hd|].
  intros s H1 H2. apply Hr.
  apply in_map_iff in H1 as (m1 & <- & H1).
  apply in_map_iff in H2 as (m2 & E & H2).
  apply in_flat_map in H2 as (r' & Hr' & H2).
  apply in_map_iff. exists r'. split; [|exact Hr'].
  assert (L : forall q m, In m (recordMetrics q) ->
            firstn 2 (tl (labelValues m)) = [strconv.FormatUint (Vrid q); Interface q]).
  { intros q m Hm. unfold recordMetrics in Hm.
    apply in_app_iff in Hm as [Hm|Hm]; apply labels_instanceMetrics in Hm;
      destruct (labelValues m) as [|l0 [|l1 [|l2 ls]]]; try discriminate;
      injection Hm as _ -> ->; reflexivity. }
  pose proof (L r m1 H1) as L1. pose proof (L r' m2 H2) as L2.
  unfold seriesOf in E. injection E as _ E. rewrite E in L2. rewrite L1 in L2.
  injection L2 as Ev Ei.
  unfold strconv.FormatUint in Ev.
  apply string_of_uint_inj, DecimalN.Unsigned.to_uint_inj in Ev.
  congruence.
Qed.

Lemma no_series_twice_example :
  exists ms,
    processVRRPInfo exampleInput getVRRPDesc [] = Done None ([] ++ ms) /\
    List.NoDup (map seriesOf ms).
Proof.
  apply (no_series_twice exampleInput [exampleVr] []).
  - vm_compute. reflexivity.
  - repeat constructor. intros [].
Defined.

(** ** No panic *)

(** X13.  With the descriptors of [getVRRPDesc] the extractor never
    panics, whatever bytes it is given: every descriptor it looks up is in
    the map and every observation has as many label values as its
    descriptor has label names.  It ends with the decoder's error and the
    channel as it was, or with no error and the channel extended. *)
Theorem processVRRPInfo_never_panics data ch :
  (exists err, Unmarshal data = inl err /\
               processVRRPInfo data getVRRPDesc ch = Done (Some err) ch) \/
  (exists rs ms, Unmarshal data = inr rs /\
                 processVRRPInfo data getVRRPDesc ch = Done None (ch ++ ms) /\
                 Forall (fun m => length (labelValues m)
                                  = length (variableLabels (desc m))) ms).
Proof.
  destruct (Unmarshal data) as [err|rs] eqn:E.
  - left. exists err. split; [reflexivity|].
    apply decode_failure_to_caller, E.
  - right. exists rs, (flat_map recordMetrics rs).
    split; [reflexivity|]. split; [apply processVRRPInfo_run, E|].
    apply Forall_flat_map. apply List.Forall_forall. intros r _.
    apply List.Forall_forall. intros m Hm.
    unfold recordMetrics in Hm.
    apply in_app_iff in Hm as [Hm|Hm];
      apply (labelledFor_instanceMetrics r) in Hm; apply Hm.
Qed.
